(** * The cleanup engine of [tasks/clean.py]

    A shallow embedding of the cleanup tasks: the two deleters
    ([cleanup_dirs], [cleanup_files]), the expansion of patterns
    ([path_glob]), the registry runner ([execute_cleanup_tasks]) and the
    three tasks ([clean], [clean_all], [clean_python]).

    The Python code prints, deletes and raises.  It is embedded in a small
    monad of its own: a computation takes the store (the filesystem and
    the configuration lists that the tasks mutate in place), and gives a
    result or a raised exception, the new store, and the events it caused
    in order (lines printed, deleter calls, external commands). *)

From Stdlib Require Import String Ascii List Bool Arith Lia.
Import ListNotations.
Open Scope string_scope.
Open Scope list_scope.

(** ** Strings *)

(** [s.startswith(p)] of Python. *)
Definition startswith (s p : string) : bool := String.prefix p s.

(** Truth value of a Python string: the empty string is false. *)
Definition nonempty_str (s : string) : bool :=
  match s with EmptyString => false | String _ _ => true end.

(** Truth value of a Python list: the empty list is false. *)
Definition nonempty_list {A : Type} (l : list A) : bool :=
  match l with [] => false | _ :: _ => true end.

(** [x or []] for a configuration value that is [None] or a list. *)
Definition or_empty {A : Type} (x : option (list A)) : list A :=
  match x with
  | Some l => if nonempty_list l then l else []
  | None => []
  end.

(** ** Exceptions, events, configuration *)

(** A raised exception: [e.__class__.__name__], [str(e)], and whether it
    is an instance of [os.error] (that is, of [OSError]). *)
Record Exn : Type := mkExn {
  exn_class : string;
  exn_text : string;
  exn_oserror : bool
}.

(** What a run does to the outside, in order. *)
Inductive Event : Type :=
| EvPrint (line : string)                   (* print(line) *)
| EvRmtree (path : string)                  (* path.rmtree_p() was called *)
| EvUnlink (path : string)                  (* path.remove_p() was called *)
| EvRun (cmd : string) (out : list string). (* ctx.run(cmd), with what it wrote *)

(** The lines on standard output. *)
Definition stdout_of (e : Event) : list string :=
  match e with
  | EvPrint line => [line]
  | EvRun _ out => out
  | EvRmtree _ | EvUnlink _ => []
  end.

Definition stdout (evs : list Event) : list string := flat_map stdout_of evs.

(** A deleter call or an external command: what changes the filesystem. *)
Definition is_mutation (e : Event) : bool :=
  match e with
  | EvPrint _ => false
  | EvRmtree _ | EvUnlink _ | EvRun _ _ => true
  end.

(** The option group [clean] of the configuration.  [directories] and
    [files] are lists ([clean] calls [extend] on them); the extras may be
    [None]. *)
Record CleanConfig : Type := mkCleanConfig {
  directories : list string;
  files : list string;
  extra_directories : option (list string);
  extra_files : option (list string)
}.

(** The option group [clean_all]. *)
Record CleanAllConfig : Type := mkCleanAllConfig {
  all_directories : option (list string);
  all_files : option (list string)
}.

Record Config : Type := mkConfig {
  cfg_clean : CleanConfig;
  cfg_clean_all : CleanAllConfig
}.

(** [ctx.clean.directories.extend(more)]: the list object held by the
    configuration is extended in place. *)
Definition extend_directories (more : list string) (c : Config) : Config :=
  let k := cfg_clean c in
  mkConfig (mkCleanConfig (directories k ++ more) (files k)
                          (extra_directories k) (extra_files k))
           (cfg_clean_all c).

(** [ctx.clean.files.extend(more)]. *)
Definition extend_files (more : list string) (c : Config) : Config :=
  let k := cfg_clean c in
  mkConfig (mkCleanConfig (directories k) (files k ++ more)
                          (extra_directories k) (extra_files k))
           (cfg_clean_all c).

(** ** A POSIX instance of [os.path]

    The engine below takes [abspath], [dirname] and [joinpath] as they
    come; this is their POSIX reading, used to run the engine on concrete
    trees. *)
Module Posix.

Definition slash : ascii := "/"%char.

(** [s.split("/")] *)
Fixpoint split_slash (s : string) : list string :=
  match s with
  | EmptyString => [EmptyString]
  | String c s' =>
      if Ascii.eqb c slash then EmptyString :: split_slash s'
      else match split_slash s' with
           | [] => [String c EmptyString]
           | w :: ws => String c w :: ws
           end
  end.

(** ["/".join(comps)] *)
Fixpoint join_slash (comps : list string) : string :=
  match comps with
  | [] => EmptyString
  | [w] => w
  | w :: ws => (w ++ "/" ++ join_slash ws)%string
  end.

Definition isabs (p : string) : bool := startswith p "/".

(** The loop of [normpath] over the components; [new_comps] is kept
    reversed.  [rooted] tells whether the path starts with a slash. *)
Fixpoint norm_comps (rooted : bool) (comps new_comps : list string) : list string :=
  match comps with
  | [] => rev new_comps
  | comp :: more =>
      if String.eqb comp "" || String.eqb comp "." then
        norm_comps rooted more new_comps
      else if negb (String.eqb comp "..") then
        norm_comps rooted more (comp :: new_comps)
      else
        match new_comps with
        | [] => if rooted then norm_comps rooted more []
                else norm_comps rooted more [comp]
        | top :: below =>
            if String.eqb top ".." then norm_comps rooted more (comp :: new_comps)
            else norm_comps rooted more below
        end
  end.

(** [os.path.normpath] (a path starting with exactly two slashes is
    read as starting with one). *)
Definition normpath (path : string) : string :=
  if nonempty_str path then
    let rooted := isabs path in
    let body := join_slash (norm_comps rooted (split_slash path) []) in
    if rooted then ("/" ++ body)%string
    else if nonempty_str body then body else "."
  else ".".

(** [os.path.join(a, b)] *)
Definition joinpath (a b : string) : string :=
  if isabs b then b
  else if negb (nonempty_str a) then b
  else if String.eqb (substring (String.length a - 1) 1 a) "/" then (a ++ b)%string
  else (a ++ "/" ++ b)%string.

(** [os.path.abspath(p)] in a process whose working directory is [cwd]. *)
Definition abspath (cwd p : string) : string :=
  if isabs p then normpath p else normpath (joinpath cwd p).

(** The head of [p]: what comes before its last slash, without trailing
    slashes unless it is made of slashes only. *)
Fixpoint strip_slashes_rev (r : list string) : list string :=
  match r with
  | w :: more => if String.eqb w "" then strip_slashes_rev more else r
  | [] => []
  end.

Definition dirname (p : string) : string :=
  match rev (split_slash p) with
  | [] | [_] => ""
  | _ :: head_rev =>
      match strip_slashes_rev head_rev with
      | [] => (* slashes only *)
          String.concat "/" (rev head_rev) ++ "/"
      | kept => join_slash (rev kept)
      end
  end%string.

End Posix.

(** ** A small filesystem

    Paths are kept as [Path(".").glob] yields them: relative to the
    working directory, components joined by slashes.  A locked file is one
    whose unlink the system refuses. *)
Module SimpleFS.

Inductive Kind : Type := KFile | KDir | KLocked.

Definition t : Type := list (string * Kind).

Definition lookup (p : string) (tree : t) : option Kind :=
  match find (fun e => String.eqb (fst e) p) tree with
  | Some e => Some (snd e)
  | None => None
  end.

Definition star : ascii := "*"%char.

(** One component against one component of a pattern: [*] stands for
    any run of characters. *)
Fixpoint wild (pat name : string) : bool :=
  match pat with
  | EmptyString => negb (nonempty_str name)
  | String c pat' =>
      if Ascii.eqb c star then
        (fix skip (n : string) : bool :=
           wild pat' n ||
           match n with
           | EmptyString => false
           | String _ n' => skip n'
           end) name
      else
        match name with
        | EmptyString => false
        | String d name' => Ascii.eqb c d && wild pat' name'
        end
  end.

(** The components of a pattern against those of a path: [**] stands
    for any number of leading components. *)
Fixpoint wild_path (pats names : list string) : bool :=
  match pats with
  | [] => match names with [] => true | _ :: _ => false end
  | pat :: pats' =>
      if String.eqb pat "**" then
        (fix skip (ns : list string) : bool :=
           wild_path pats' ns ||
           match ns with
           | [] => false
           | _ :: ns' => skip ns'
           end) names
      else
        match names with
        | [] => false
        | name :: names' => wild pat name && wild_path pats' names'
        end
  end.

(** The path [p] as seen from [dir]: itself from ["."], what follows
    [dir/] when it lies under [dir]. *)
Definition relative_to (dir p : string) : option string :=
  if String.eqb dir "." then Some p
  else
    let d := (dir ++ "/")%string in
    if startswith p d
    then Some (substring (String.length d) (String.length p - String.length d) p)
    else None.

Definition glob (tree : t) (dir pattern : string) : list string :=
  filter (fun p =>
            match relative_to dir p with
            | Some r => wild_path (Posix.split_slash pattern) (Posix.split_slash r)
            | None => false
            end)
         (map fst tree).

Definition under (dir p : string) : bool :=
  String.eqb p dir || startswith p (dir ++ "/").

(** [Path.rmtree_p]: a missing path is let through, a directory goes
    with all below it, anything else is not a directory. *)
Definition rmtree_p (p : string) (tree : t) : t * option Exn :=
  match lookup p tree with
  | None => (tree, None)
  | Some KDir => (filter (fun e => negb (under p (fst e))) tree, None)
  | Some _ =>
      (tree, Some (mkExn "NotADirectoryError"
                         ("[Errno 20] Not a directory: '" ++ p ++ "'") true))
  end.

(** [Path.remove_p]: a missing path is let through, a file is unlinked,
    a directory or a locked file is refused. *)
Definition remove_p (p : string) (tree : t) : t * option Exn :=
  match lookup p tree with
  | None => (tree, None)
  | Some KFile => (filter (fun e => negb (String.eqb (fst e) p)) tree, None)
  | Some KDir =>
      (tree, Some (mkExn "IsADirectoryError"
                         ("[Errno 21] Is a directory: '" ++ p ++ "'") true))
  | Some KLocked =>
      (tree, Some (mkExn "PermissionError"
                         ("[Errno 13] Permission denied: '" ++ p ++ "'") true))
  end.

(** [smaller] is the tree with all entries of some names taken away. *)
Definition le (smaller tree : t) : Prop :=
  exists keep : string -> bool, smaller = filter (fun e => keep (fst e)) tree.

(** An external command that leaves the tree alone and writes nothing. *)
Definition run_cmd (cmd : string) (tree : t) : t * list string * option Exn :=
  (tree, [], None).

End SimpleFS.

(** [config_add_cleanup_dirs] and [config_add_cleanup_files]: other
    modules extend the base lists when they are loaded. *)
Definition config_add_cleanup_dirs (more : list string) (c : Config) : Config :=
  extend_directories more c.

Definition config_add_cleanup_files (more : list string) (c : Config) : Config :=
  extend_files more c.

(** The configuration the module installs ([namespace.configure]). *)
Definition default_config : Config :=
  mkConfig
    (mkCleanConfig [] ["*.bak"; "*.log"; "*.tmp"; "**/.DS_Store"; "**/*.~*~"]
                   (Some []) (Some []))
    (mkCleanAllConfig (Some [".venv*"; ".tox"; "downloads"; "tmp"]) (Some [])).

(** ** The monad *)

Inductive Result (A : Type) : Type :=
| Ok (a : A)
| Raise (e : Exn).
Arguments Ok {A} a.
Arguments Raise {A} e.

Definition is_ok {A : Type} (r : Result A) : bool :=
  match r with Ok _ => true | Raise _ => false end.

Section Effects.

Context {FS : Type}.

Record Store : Type := mkStore {
  fs : FS;
  cfg : Config
}.

Record Out (A : Type) : Type := mkOut {
  res : Result A;
  st : Store;
  evs : list Event
}.
Arguments mkOut {A} res st evs.
Arguments res {A} o.
Arguments st {A} o.
Arguments evs {A} o.

Definition M (A : Type) : Type := Store -> Out A.

Definition ret {A : Type} (a : A) : M A :=
  fun s => mkOut (Ok a) s [].

Definition raise {A : Type} (e : Exn) : M A :=
  fun s => mkOut (Raise e) s [].

Definition bind {A B : Type} (m : M A) (k : A -> M B) : M B :=
  fun s =>
    let o := m s in
    match res o with
    | Ok a => let o' := k a (st o) in
              mkOut (res o') (st o') (evs o ++ evs o')
    | Raise e => mkOut (Raise e) (st o) (evs o)
    end.

(** [try: body except os.error as e: handler(e)]. *)
Definition try_except_oserror {A : Type} (body : M A) (handler : Exn -> M A) : M A :=
  fun s =>
    let o := body s in
    match res o with
    | Ok _ => o
    | Raise e =>
        if exn_oserror e
        then let o' := handler e (st o) in
             mkOut (res o') (st o') (evs o ++ evs o')
        else o
    end.

Definition print (line : string) : M unit :=
  fun s => mkOut (Ok tt) s [EvPrint line].

Definition get_config : M Config :=
  fun s => mkOut (Ok (cfg s)) s [].

Definition update_config (f : Config -> Config) : M unit :=
  fun s => mkOut (Ok tt) (mkStore (fs s) (f (cfg s))) [].

(** What a library call gives back: nothing, or the exception it raised. *)
Definition outcome (err : option Exn) : Result unit :=
  match err with None => Ok tt | Some e => Raise e end.

End Effects.

Arguments Store FS : clear implicits.
Arguments Out FS A : clear implicits.
Arguments M FS A : clear implicits.
Arguments mkOut {FS A} res st evs.
Arguments res {FS A} o.
Arguments st {FS A} o.
Arguments evs {FS A} o.

Notation "x <- m ;; k" := (bind m (fun x => k))
  (at level 61, m at next level, right associativity).
Notation "m ;; k" := (bind m (fun _ => k))
  (at level 61, right associativity).

(** ** The system under the engine

    The filesystem, the library calls the module makes on it, [os.path]
    and the process. *)
Class System (FS : Type) : Type := mkSystem {
  (** [pathlib.Path(dir).glob(pattern)], as strings, in the order yielded. *)
  glob : FS -> string -> string -> list string;
  (** [path.rmtree_p()]: the new filesystem, and the exception raised if
      any (a missing path raises nothing). *)
  rmtree_p : string -> FS -> FS * option Exn;
  (** [path.remove_p()]: likewise for unlinking one file. *)
  remove_p : string -> FS -> FS * option Exn;
  (** [ctx.run(cmd)]: the new filesystem, what the command wrote, and the
      exception raised if any. *)
  run_cmd : string -> FS -> FS * list string * option Exn;
  (** [os.path.abspath], [os.path.dirname], [os.path.join]. *)
  abspath : string -> string;
  dirname : string -> string;
  joinpath : string -> string -> string;
  (** [sys.executable] and [pathlib.Path.cwd()]. *)
  sys_executable : string;
  cwd : string
}.

(** What is asked of a filesystem for a second run to find nothing left
    to do.  [fs_le t' t] reads: [t'] is [t] with some entries taken away.
    Taking entries away adds no match to any pattern; a deleter that
    returns has taken its path away for good; an unlink that fails leaves
    the tree as it is, and is of no effect either on any smaller tree. *)
Class Lawful {FS : Type} (sys : System FS) : Type := mkLawful {
  fs_le : FS -> FS -> Prop;
  fs_le_refl : forall t, fs_le t t;
  fs_le_trans : forall t1 t2 t3, fs_le t1 t2 -> fs_le t2 t3 -> fs_le t1 t3;
  glob_mono : forall t' t dir pattern p,
    fs_le t' t -> In p (glob t' dir pattern) -> In p (glob t dir pattern);
  rmtree_p_ok : forall p t,
    snd (rmtree_p p t) = None ->
    fs_le (fst (rmtree_p p t)) t /\
    forall dir pattern, ~ In p (glob (fst (rmtree_p p t)) dir pattern);
  remove_p_ok : forall p t,
    snd (remove_p p t) = None ->
    fs_le (fst (remove_p p t)) t /\
    forall dir pattern, ~ In p (glob (fst (remove_p p t)) dir pattern);
  remove_p_failed : forall p t e,
    snd (remove_p p t) = Some e ->
    fst (remove_p p t) = t /\
    forall t', fs_le t' t -> fst (remove_p p t') = t'
}.

Section Engine.

Context {FS : Type} {sys : System FS}.

(** [directory.rmtree_p()] *)
Definition call_rmtree_p (directory : string) : M FS unit :=
  fun s =>
    let r := rmtree_p directory (fs s) in
    mkOut (outcome (snd r)) (mkStore (fst r) (cfg s)) [EvRmtree directory].

(** [file_.remove_p()] *)
Definition call_remove_p (file_ : string) : M FS unit :=
  fun s =>
    let r := remove_p file_ (fs s) in
    mkOut (outcome (snd r)) (mkStore (fst r) (cfg s)) [EvUnlink file_].

(** [ctx.run(cmd)] *)
Definition ctx_run (cmd : string) : M FS unit :=
  fun s =>
    let r := run_cmd cmd (fs s) in
    mkOut (outcome (snd r)) (mkStore (fst (fst r)) (cfg s))
          [EvRun cmd (snd (fst r))].

(** ** [path_glob]

    An empty [current_dir] is false in Python and stands for the working
    directory of the process; any other is handed to pathlib as it is.
    The generator is read as the list of the paths it yields on the
    filesystem as it is when the loop over it starts. *)
Definition path_glob (pattern current_dir : string) : M FS (list string) :=
  fun s =>
    let dir := if nonempty_str current_dir then current_dir else cwd in
    mkOut (Ok (glob (fs s) dir pattern)) s [].

(** ** The deleters *)

Definition python_basedir : string :=
  abspath (joinpath (dirname sys_executable) "..").

(** The body of the inner loop of [cleanup_dirs], over the paths of one
    pattern; [warn2_counter] is threaded through. *)
Fixpoint cleanup_dirs_each (candidates : list string) (dry_run : bool)
         (warn2_counter : nat) : M FS nat :=
  match candidates with
  | [] => ret warn2_counter
  | directory :: rest =>
      let directory2 := abspath directory in
      if startswith sys_executable directory2 then
        print ("SKIP-SUICIDE: '" ++ directory ++ "' contains current python executable") ;;
        cleanup_dirs_each rest dry_run warn2_counter
      else if startswith directory2 python_basedir then
        (if Nat.leb warn2_counter 4
         then print ("SKIP-SUICIDE: '" ++ directory ++ "'")
         else ret tt) ;;
        cleanup_dirs_each rest dry_run (warn2_counter + 1)
      else if dry_run then
        print ("RMTREE: " ++ directory ++ " (dry-run)") ;;
        cleanup_dirs_each rest dry_run warn2_counter
      else
        print ("RMTREE: " ++ directory) ;;
        call_rmtree_p directory ;;
        cleanup_dirs_each rest dry_run warn2_counter
  end.

(** The outer loop of [cleanup_dirs], over the patterns. *)
Fixpoint cleanup_dirs_loop (patterns : list string) (dry_run : bool)
         (current_dir : string) (warn2_counter : nat) : M FS nat :=
  match patterns with
  | [] => ret warn2_counter
  | dir_pattern :: more =>
      candidates <- path_glob dir_pattern current_dir ;;
      n <- cleanup_dirs_each candidates dry_run warn2_counter ;;
      cleanup_dirs_loop more dry_run current_dir n
  end.

Definition cleanup_dirs (patterns : list string) (dry_run : bool)
           (workdir : string) : M FS unit :=
  cleanup_dirs_loop patterns dry_run workdir 0 ;; ret tt.

(** The two locals of [cleanup_files]. *)
Record FileErrors : Type := mkFileErrors {
  error_message : option string;
  error_count : nat
}.

(** Truth value of [error_message]: [None] and the empty string are false. *)
Definition truthy (m : option string) : bool :=
  match m with Some s => nonempty_str s | None => false end.

(** The handler of [except os.error as e] in [cleanup_files]. *)
Definition unlink_failed (e : Exn) (acc : FileErrors) : M FS FileErrors :=
  let message := (exn_class e ++ ": " ++ exn_text e)%string in
  print (message ++ " basedir: " ++ python_basedir) ;;
  ret (mkFileErrors
         (if truthy (error_message acc) then error_message acc else Some message)
         (error_count acc + 1)).

(** The body of the inner loop of [cleanup_files]. *)
Fixpoint cleanup_files_each (candidates : list string) (dry_run : bool)
         (acc : FileErrors) : M FS FileErrors :=
  match candidates with
  | [] => ret acc
  | file_ :: rest =>
      if startswith (abspath file_) python_basedir then
        cleanup_files_each rest dry_run acc
      else if dry_run then
        print ("REMOVE: " ++ file_ ++ " (dry-run)") ;;
        cleanup_files_each rest dry_run acc
      else
        print ("REMOVE: " ++ file_) ;;
        acc' <- try_except_oserror
                  (call_remove_p file_ ;; ret acc)
                  (fun e => unlink_failed e acc) ;;
        cleanup_files_each rest dry_run acc'
  end.

Fixpoint cleanup_files_loop (patterns : list string) (dry_run : bool)
         (current_dir : string) (acc : FileErrors) : M FS FileErrors :=
  match patterns with
  | [] => ret acc
  | file_pattern :: more =>
      candidates <- path_glob file_pattern current_dir ;;
      acc' <- cleanup_files_each candidates dry_run acc ;;
      cleanup_files_loop more dry_run current_dir acc'
  end.

Definition CleanupError (message : option string) : Exn :=
  mkExn "CleanupError" (match message with Some m => m | None => "" end) false.

Definition cleanup_files (patterns : list string) (dry_run : bool)
           (workdir : string) : M FS unit :=
  acc <- cleanup_files_loop patterns dry_run workdir (mkFileErrors None 0) ;;
  if false && truthy (error_message acc)
  then raise (CleanupError (error_message acc))
  else ret tt.

(** ** The registry and the tasks *)

(** An entry of a registry: the name it is registered under, and the
    task, called with [dry_run]. *)
Record Task : Type := mkTask {
  task_name : string;
  task_body : bool -> M FS unit
}.

(** [Collection.tasks] is kept in the order of registration. *)
Fixpoint execute_cleanup_tasks (tasks : list Task) (dry_run : bool) : M FS unit :=
  match tasks with
  | [] => ret tt
  | cleanup_task :: more =>
      print ("CLEANUP TASK: " ++ task_name cleanup_task) ;;
      task_body cleanup_task dry_run ;;
      execute_cleanup_tasks more dry_run
  end.

Definition clean_python (dry_run : bool) : M FS unit :=
  cleanup_dirs ["build"; "dist"; "*.egg-info"; "**/__pycache__"] dry_run "." ;;
  (if negb dry_run then ctx_run "py.cleanup" else ret tt) ;;
  cleanup_files ["**/*.pyc"; "**/*.pyo"; "**/*$py.class"] dry_run ".".

(** The registries as this module leaves them: [clean_python] is
    registered in [cleanup_tasks], and [cleanup_all_tasks] is empty. *)
Definition initial_cleanup_tasks : list Task :=
  [mkTask "clean_python" clean_python].

Definition initial_cleanup_all_tasks : list Task := [].

(** The two registries, filled when the modules are loaded. *)
Variable cleanup_tasks : list Task.
Variable cleanup_all_tasks : list Task.

(** [clean].  The locals [directories] and [files] name the list
    objects of the configuration: [extend] changes the configuration,
    and the deleters read the lists as they are when they are called. *)
Definition clean (dry_run : bool) : M FS unit :=
  c <- get_config ;;
  let extra_directories := or_empty (extra_directories (cfg_clean c)) in
  let extra_files := or_empty (extra_files (cfg_clean c)) in
  (if nonempty_list extra_directories
   then update_config (extend_directories extra_directories)
   else ret tt) ;;
  (if nonempty_list extra_files
   then update_config (extend_files extra_files)
   else ret tt) ;;
  execute_cleanup_tasks cleanup_tasks dry_run ;;
  c1 <- get_config ;;
  cleanup_dirs (directories (cfg_clean c1)) dry_run "." ;;
  c2 <- get_config ;;
  cleanup_files (files (cfg_clean c2)) dry_run ".".

Definition clean_all (dry_run : bool) : M FS unit :=
  c <- get_config ;;
  cleanup_dirs (or_empty (all_directories (cfg_clean_all c))) dry_run "." ;;
  c' <- get_config ;;
  cleanup_files (or_empty (all_files (cfg_clean_all c'))) dry_run "." ;;
  execute_cleanup_tasks cleanup_all_tasks dry_run ;;
  clean dry_run.

(** ** The orchestrators in the words of the specification *)

(** The effective lists: the base lists with the extras appended. *)
Definition effective_config (c : Config) : Config :=
  let k := cfg_clean c in
  mkConfig (mkCleanConfig (directories k ++ or_empty (extra_directories k))
                          (files k ++ or_empty (extra_files k))
                          (extra_directories k) (extra_files k))
           (cfg_clean_all c).

(** The contributors of a registry, one after the other in the order of
    registration: each is announced, then runs to its end; the next one
    starts only if it returned. *)
Fixpoint contributors_trace (tasks : list Task) (dry_run : bool) (s : Store FS) : list Event :=
  match tasks with
  | [] => []
  | t :: more =>
      let o := task_body t dry_run s in
      EvPrint ("CLEANUP TASK: " ++ task_name t) :: evs o ++
      (if is_ok (res o) then contributors_trace more dry_run (st o) else [])
  end.


(** A computation that leaves the configuration as it found it. *)
Definition keeps_config {A : Type} (m : M FS A) : Prop :=
  forall s, cfg (st (m s)) = cfg s.

(** A computation that leaves the filesystem as it found it, calling no
    deleter and no external command. *)
Definition no_mutation {A : Type} (m : M FS A) : Prop :=
  forall s, fs (st (m s)) = fs s /\
            Forall (fun e => is_mutation e = false) (evs (m s)).

(** ** Laws of the monad *)

Lemma evs_bind {A B : Type} (m : M FS A) (k : A -> M FS B) (s : Store FS) :
  evs (bind m k s) =
  evs (m s) ++ match res (m s) with
               | Ok a => evs (k a (st (m s)))
               | Raise _ => []
               end.
Proof.
  unfold bind. destruct (res (m s)); simpl; [reflexivity | now rewrite app_nil_r].
Qed.

Lemma st_bind {A B : Type} (m : M FS A) (k : A -> M FS B) (s : Store FS) :
  st (bind m k s) =
  match res (m s) with
  | Ok a => st (k a (st (m s)))
  | Raise _ => st (m s)
  end.
Proof. unfold bind. now destruct (res (m s)). Qed.

Lemma res_bind {A B : Type} (m : M FS A) (k : A -> M FS B) (s : Store FS) :
  res (bind m k s) =
  match res (m s) with
  | Ok a => res (k a (st (m s)))
  | Raise e => Raise e
  end.
Proof. unfold bind. now destruct (res (m s)). Qed.

Lemma bind_unfold {A B : Type} (m : M FS A) (k : A -> M FS B) (s : Store FS) :
  bind m k s =
  match res (m s) with
  | Ok a => let o' := k a (st (m s)) in
            mkOut (res o') (st o') (evs (m s) ++ evs o')
  | Raise e => mkOut (Raise e) (st (m s)) (evs (m s))
  end.
Proof. reflexivity. Qed.

Lemma Out_eta {A : Type} (o : Out FS A) : o = mkOut (res o) (st o) (evs o).
Proof. now destruct o. Qed.


Lemma bind_ret_l {A B : Type} (a : A) (k : A -> M FS B) (s : Store FS) :
  bind (ret a) k s = k a s.
Proof. unfold bind, ret; simpl. now destruct (k a s). Qed.

Lemma bind_get_config {B : Type} (k : Config -> M FS B) (s : Store FS) :
  bind get_config k s = k (cfg s) s.
Proof. unfold bind, get_config; cbn. now destruct (k (cfg s) s). Qed.

Lemma bind_update_config {B : Type} (f : Config -> Config) (k : unit -> M FS B)
      (s : Store FS) :
  bind (update_config f) k s = k tt (mkStore (fs s) (f (cfg s))).
Proof.
  unfold bind, update_config; cbn.
  now destruct (k tt (mkStore (fs s) (f (cfg s)))).
Qed.

Lemma bind_print {B : Type} (line : string) (k : unit -> M FS B) (s : Store FS) :
  bind (print line) k s =
  mkOut (res (k tt s)) (st (k tt s)) (EvPrint line :: evs (k tt s)).
Proof. reflexivity. Qed.

Lemma bind_assoc {A B C : Type} (m : M FS A) (k : A -> M FS B) (h : B -> M FS C) (s : Store FS) :
  bind (bind m k) h s = bind m (fun a => bind (k a) h) s.
Proof.
  unfold bind. destruct (res (m s)) as [a|e]; simpl; [|reflexivity].
  destruct (res (k a (st (m s)))); simpl; [|reflexivity].
  now rewrite app_assoc.
Qed.

(** A property of all events of [m] and of what follows it holds of all
    events of the two in sequence. *)
Lemma Forall_evs_bind {A B : Type} (P : Event -> Prop) (m : M FS A) (k : A -> M FS B) (s : Store FS) :
  Forall P (evs (m s)) ->
  (forall a, res (m s) = Ok a -> Forall P (evs (k a (st (m s))))) ->
  Forall P (evs (bind m k s)).
Proof.
  intros Hm Hk. rewrite evs_bind. apply Forall_app. split; [exact Hm|].
  destruct (res (m s)) as [a|e]; [now apply Hk | constructor].
Qed.

(** ** Strings *)

Lemma startswith_app (p s : string) : startswith (p ++ s) p = true.
Proof.
  unfold startswith. induction p as [|c p IH]; simpl.
  - now destruct s.
  - destruct (ascii_dec c c) as [_|n]; [exact IH | now elim n].
Qed.

Lemma startswith_split (s p : string) :
  startswith s p = true -> exists rest, s = (p ++ rest)%string.
Proof.
  unfold startswith. revert s. induction p as [|c p IH]; intros s H.
  - now exists s.
  - destruct s as [|d s]; simpl in H; [discriminate|].
    destruct (ascii_dec c d) as [->|]; [|discriminate].
    destruct (IH s H) as [rest ->]. now exists rest.
Qed.

(** ** The safety gate *)

(** What the gate promises of a deleter call: the tree remover is not
    called on a path the interpreter's path starts with, and no deleter
    is called on a path that starts with the environment base. *)
Definition outside_interpreter (e : Event) : Prop :=
  match e with
  | EvRmtree p => startswith sys_executable (abspath p) = false
  | _ => True
  end.

Definition outside_basedir (e : Event) : Prop :=
  match e with
  | EvRmtree p | EvUnlink p => startswith (abspath p) python_basedir = false
  | _ => True
  end.

Definition gated (e : Event) : Prop := outside_interpreter e /\ outside_basedir e.

Lemma gated_print (line : string) : gated (EvPrint line).
Proof. now split. Qed.

Lemma cleanup_dirs_each_gated (candidates : list string) (dry_run : bool) :
  forall n s, Forall gated (evs (cleanup_dirs_each candidates dry_run n s)).
Proof.
  induction candidates as [|d rest IH]; intros n s; simpl.
  - constructor.
  - destruct (startswith sys_executable (abspath d)) eqn:Hexe.
    { rewrite bind_print; simpl. constructor; [apply gated_print | apply IH]. }
    destruct (startswith (abspath d) python_basedir) eqn:Hbase.
    { apply Forall_evs_bind; [|intros; apply IH].
      destruct (Nat.leb n 4); simpl; repeat constructor. }
    destruct dry_run.
    { rewrite bind_print; simpl. constructor; [apply gated_print | apply IH]. }
    rewrite bind_print; simpl. constructor; [apply gated_print|].
    apply Forall_evs_bind; [|intros; apply IH].
    simpl. constructor; [|constructor]. now split.
Qed.

Lemma cleanup_dirs_loop_gated (patterns : list string) (dry_run : bool) (dir : string) :
  forall n s, Forall gated (evs (cleanup_dirs_loop patterns dry_run dir n s)).
Proof.
  induction patterns as [|pat more IH]; intros n s; simpl.
  - constructor.
  - apply Forall_evs_bind; [apply cleanup_dirs_each_gated|]. intros; apply IH.
Qed.

Lemma cleanup_dirs_gated (patterns : list string) (dry_run : bool) (workdir : string) (s : Store FS) :
  Forall gated (evs (cleanup_dirs patterns dry_run workdir s)).
Proof.
  unfold cleanup_dirs. apply Forall_evs_bind; [apply cleanup_dirs_loop_gated|].
  intros; constructor.
Qed.

Lemma try_unlink_gated (file_ : string) (acc : FileErrors) (s : Store FS) :
  startswith (abspath file_) python_basedir = false ->
  Forall gated
    (evs (try_except_oserror (call_remove_p file_ ;; ret acc)
                             (fun e => unlink_failed e acc) s)).
Proof.
  intros Hbase. unfold try_except_oserror, bind, call_remove_p, unlink_failed, print, ret.
  simpl. destruct (snd (remove_p file_ (fs s))) as [e|]; simpl.
  - destruct (exn_oserror e); simpl; repeat constructor; assumption.
  - repeat constructor; assumption.
Qed.

Lemma cleanup_files_each_gated (candidates : list string) (dry_run : bool) :
  forall acc s, Forall gated (evs (cleanup_files_each candidates dry_run acc s)).
Proof.
  induction candidates as [|f rest IH]; intros acc s; simpl.
  - constructor.
  - destruct (startswith (abspath f) python_basedir) eqn:Hbase; [apply IH|].
    destruct dry_run.
    { rewrite bind_print; simpl. constructor; [apply gated_print | apply IH]. }
    rewrite bind_print; simpl. constructor; [apply gated_print|].
    apply Forall_evs_bind; [now apply try_unlink_gated | intros; apply IH].
Qed.

Lemma cleanup_files_loop_gated (patterns : list string) (dry_run : bool) (dir : string) :
  forall acc s, Forall gated (evs (cleanup_files_loop patterns dry_run dir acc s)).
Proof.
  induction patterns as [|pat more IH]; intros acc s; simpl.
  - constructor.
  - apply Forall_evs_bind; [apply cleanup_files_each_gated|]. intros; apply IH.
Qed.

Lemma cleanup_files_gated (patterns : list string) (dry_run : bool) (workdir : string) (s : Store FS) :
  Forall gated (evs (cleanup_files patterns dry_run workdir s)).
Proof.
  unfold cleanup_files. apply Forall_evs_bind; [apply cleanup_files_loop_gated|].
  intros; simpl; constructor.
Qed.

(** The line printed for a candidate the interpreter lives under. *)
Definition suicide_exe_line (directory : string) : string :=
  "SKIP-SUICIDE: '" ++ directory ++ "' contains current python executable".

(** The line printed for a candidate inside the environment base. *)
Definition suicide_line (directory : string) : string :=
  "SKIP-SUICIDE: '" ++ directory ++ "'".

Lemma cleanup_dirs_each_exe (directory : string) (rest : list string)
      (dry_run : bool) (n : nat) (s : Store FS) :
  startswith sys_executable (abspath directory) = true ->
  cleanup_dirs_each (directory :: rest) dry_run n s =
  (print (suicide_exe_line directory) ;; cleanup_dirs_each rest dry_run n) s.
Proof. intros H. cbn [cleanup_dirs_each]. now rewrite H. Qed.

Lemma cleanup_dirs_each_base (directory : string) (rest : list string)
      (dry_run : bool) (n : nat) (s : Store FS) :
  startswith sys_executable (abspath directory) = false ->
  startswith (abspath directory) python_basedir = true ->
  cleanup_dirs_each (directory :: rest) dry_run n s =
  ((if Nat.leb n 4 then print (suicide_line directory) else ret tt) ;;
   cleanup_dirs_each rest dry_run (n + 1)) s.
Proof. intros H1 H2. cbn [cleanup_dirs_each]. now rewrite H1, H2. Qed.

Lemma cleanup_files_each_base (file_ : string) (rest : list string)
      (dry_run : bool) (acc : FileErrors) (s : Store FS) :
  startswith (abspath file_) python_basedir = true ->
  cleanup_files_each (file_ :: rest) dry_run acc s =
  cleanup_files_each rest dry_run acc s.
Proof. intros H. cbn [cleanup_files_each]. now rewrite H. Qed.

(** When the loop over the candidates returns, it has been through all
    of them: each one the interpreter lives under has its line. *)
Lemma cleanup_dirs_each_exe_reported (candidates : list string) (dry_run : bool) :
  forall n s,
    is_ok (res (cleanup_dirs_each candidates dry_run n s)) = true ->
    forall directory,
      In directory candidates ->
      startswith sys_executable (abspath directory) = true ->
      In (EvPrint (suicide_exe_line directory))
         (evs (cleanup_dirs_each candidates dry_run n s)).
Proof.
  induction candidates as [|d rest IH]; intros n s Hok directory Hin Hexe;
    [contradiction|].
  cbn [cleanup_dirs_each] in *.
  destruct (startswith sys_executable (abspath d)) eqn:Hd.
  - rewrite bind_print in *; simpl in *.
    destruct Hin as [->|Hin]; [now left | right; now apply IH].
  - destruct Hin as [->|Hin]; [congruence|].
    destruct (startswith (abspath d) python_basedir).
    + rewrite evs_bind. rewrite res_bind in Hok. apply in_or_app. right.
      destruct (Nat.leb n 4); simpl in *; now apply IH.
    + destruct dry_run.
      * rewrite bind_print in *; simpl in *. right; now apply IH.
      * rewrite bind_print in *; simpl in *. right.
        rewrite evs_bind. rewrite res_bind in Hok. apply in_or_app. right.
        destruct (res (call_rmtree_p d s)); [now apply IH | discriminate].
Qed.


(** C1.  The directory deleter never calls the tree remover on a path
    that the interpreter's path starts with, whatever the patterns, the
    working directory and the filesystem.  Such a candidate is skipped:
    the loop prints the line saying it contains the current executable
    and goes on with the next candidate, counter and store unchanged;
    and a loop that returns has printed that line for every such
    candidate. *)
Theorem cleanup_dirs_spares_interpreter :
  forall (patterns : list string) (dry_run : bool) (workdir : string) (s : Store FS),
    Forall outside_interpreter (evs (cleanup_dirs patterns dry_run workdir s)) /\
    (forall directory rest n s',
       startswith sys_executable (abspath directory) = true ->
       cleanup_dirs_each (directory :: rest) dry_run n s' =
       (print ("SKIP-SUICIDE: '" ++ directory ++ "' contains current python executable") ;;
        cleanup_dirs_each rest dry_run n) s') /\
    (forall candidates n s' directory,
       is_ok (res (cleanup_dirs_each candidates dry_run n s')) = true ->
       In directory candidates ->
       startswith sys_executable (abspath directory) = true ->
       In (EvPrint ("SKIP-SUICIDE: '" ++ directory ++ "' contains current python executable"))
          (evs (cleanup_dirs_each candidates dry_run n s'))).
Proof.
  intros patterns dry_run workdir s. split; [|split].
  - eapply Forall_impl; [|apply cleanup_dirs_gated]. intros e [H _]; exact H.
  - intros. now apply cleanup_dirs_each_exe.
  - intros. now apply cleanup_dirs_each_exe_reported.
Qed.


(** C10.  The gate compares strings: nothing in it looks for a path
    separator.  A candidate whose absolute path is the environment base
    followed by any characters at all is skipped by both deleters (the
    directory deleter prints at most lines of its own and goes on with
    the next candidate), and a directory whose absolute path is the
    start of the interpreter's path, cut anywhere, is denied. *)
Theorem gate_is_raw_string_prefix :
  forall (dry_run : bool) (candidate tail : string) (rest : list string),
    (abspath candidate = (python_basedir ++ tail)%string ->
     (forall acc s,
        cleanup_files_each (candidate :: rest) dry_run acc s =
        cleanup_files_each rest dry_run acc s) /\
     (forall n s, exists notes n',
        cleanup_dirs_each (candidate :: rest) dry_run n s =
        let o := cleanup_dirs_each rest dry_run n' s in
        mkOut (res o) (st o) (map EvPrint notes ++ evs o))) /\
    (sys_executable = (abspath candidate ++ tail)%string ->
     forall n s,
       cleanup_dirs_each (candidate :: rest) dry_run n s =
       (print ("SKIP-SUICIDE: '" ++ candidate ++ "' contains current python executable") ;;
        cleanup_dirs_each rest dry_run n) s).
Proof.
  intros dry_run candidate tail rest. split.
  - intros Habs.
    assert (Hbase : startswith (abspath candidate) python_basedir = true)
      by (rewrite Habs; apply startswith_app).
    split.
    + intros. now apply cleanup_files_each_base.
    + intros n s.
      destruct (startswith sys_executable (abspath candidate)) eqn:Hexe.
      * exists [suicide_exe_line candidate], n.
        rewrite cleanup_dirs_each_exe by assumption. reflexivity.
      * rewrite cleanup_dirs_each_base by assumption.
        destruct (Nat.leb n 4).
        -- exists [suicide_line candidate], (n + 1). reflexivity.
        -- exists [], (n + 1). rewrite bind_ret_l. simpl. apply Out_eta.
  - intros Hexe n s. apply cleanup_dirs_each_exe.
    rewrite Hexe. apply startswith_app.
Qed.

(** ** Unlink errors in the file deleter *)

(** The message built in the handler is never empty. *)
Lemma message_truthy (e : Exn) :
  truthy (Some (exn_class e ++ ": " ++ exn_text e)%string) = true.
Proof. simpl. now destruct (exn_class e). Qed.







(** When unlink fails with filesystem errors only, the loops return. *)
Section OnlyOSErrors.

Hypothesis unlink_oserror :
  forall p tree e, snd (remove_p p tree) = Some e -> exn_oserror e = true.





End OnlyOSErrors.









(** ** The configuration through a run *)

Lemma keeps_config_bind {A B : Type} (m : M FS A) (k : A -> M FS B) :
  keeps_config m -> (forall a, keeps_config (k a)) -> keeps_config (bind m k).
Proof.
  intros Hm Hk s. rewrite st_bind.
  destruct (res (m s)); [rewrite Hk|]; apply Hm.
Qed.

Lemma keeps_config_ret {A : Type} (a : A) : keeps_config (ret a).
Proof. now intros s. Qed.

Lemma keeps_config_print (line : string) : keeps_config (print line).
Proof. now intros s. Qed.

Lemma cleanup_dirs_each_keeps_config (candidates : list string) (dry_run : bool) :
  forall n, keeps_config (cleanup_dirs_each candidates dry_run n).
Proof.
  induction candidates as [|d rest IH]; intros n; cbn [cleanup_dirs_each].
  - apply keeps_config_ret.
  - destruct (startswith sys_executable (abspath d)).
    { apply keeps_config_bind; [apply keeps_config_print | intros; apply IH]. }
    destruct (startswith (abspath d) python_basedir).
    { apply keeps_config_bind; [|intros; apply IH].
      destruct (Nat.leb n 4); [apply keeps_config_print | apply keeps_config_ret]. }
    destruct dry_run.
    { apply keeps_config_bind; [apply keeps_config_print | intros; apply IH]. }
    apply keeps_config_bind; [apply keeps_config_print | intros _].
    apply keeps_config_bind; [now intros s | intros; apply IH].
Qed.

Lemma cleanup_dirs_keeps_config (patterns : list string) (dry_run : bool) (workdir : string) :
  keeps_config (cleanup_dirs patterns dry_run workdir).
Proof.
  unfold cleanup_dirs. apply keeps_config_bind; [|intros; apply keeps_config_ret].
  generalize 0. induction patterns as [|pat more IH]; intros n; cbn [cleanup_dirs_loop].
  - apply keeps_config_ret.
  - apply keeps_config_bind; [now intros s | intros cands].
    apply keeps_config_bind; [apply cleanup_dirs_each_keeps_config | intros; apply IH].
Qed.

Lemma try_unlink_keeps_config (file_ : string) (acc : FileErrors) :
  keeps_config (try_except_oserror (call_remove_p file_ ;; ret acc)
                                   (fun e => unlink_failed e acc)).
Proof.
  intros s. unfold try_except_oserror, bind, call_remove_p, unlink_failed, print, ret.
  cbn [res st evs]. destruct (snd (remove_p file_ (fs s))) as [e|]; cbn; [|reflexivity].
  now destruct (exn_oserror e).
Qed.

Lemma cleanup_files_each_keeps_config (candidates : list string) (dry_run : bool) :
  forall acc, keeps_config (cleanup_files_each candidates dry_run acc).
Proof.
  induction candidates as [|f rest IH]; intros acc; cbn [cleanup_files_each].
  - apply keeps_config_ret.
  - destruct (startswith (abspath f) python_basedir); [apply IH|].
    destruct dry_run.
    { apply keeps_config_bind; [apply keeps_config_print | intros; apply IH]. }
    apply keeps_config_bind; [apply keeps_config_print | intros _].
    apply keeps_config_bind; [apply try_unlink_keeps_config | intros; apply IH].
Qed.

Lemma cleanup_files_keeps_config (patterns : list string) (dry_run : bool) (workdir : string) :
  keeps_config (cleanup_files patterns dry_run workdir).
Proof.
  unfold cleanup_files. apply keeps_config_bind; [|intros; apply keeps_config_ret].
  generalize (mkFileErrors None 0).
  induction patterns as [|pat more IH]; intros acc; cbn [cleanup_files_loop].
  - apply keeps_config_ret.
  - apply keeps_config_bind; [now intros s | intros cands].
    apply keeps_config_bind; [apply cleanup_files_each_keeps_config | intros; apply IH].
Qed.

Lemma execute_cleanup_tasks_keeps_config (tasks : list Task) (dry_run : bool) :
  (forall t, In t tasks -> keeps_config (task_body t dry_run)) ->
  keeps_config (execute_cleanup_tasks tasks dry_run).
Proof.
  induction tasks as [|t more IH]; intros Hall; cbn [execute_cleanup_tasks].
  - apply keeps_config_ret.
  - apply keeps_config_bind; [apply keeps_config_print | intros _].
    apply keeps_config_bind; [apply Hall; now left | intros _].
    apply IH. intros t' Hin. apply Hall. now right.
Qed.

Lemma clean_python_keeps_config (dry_run : bool) : keeps_config (clean_python dry_run).
Proof.
  unfold clean_python.
  apply keeps_config_bind; [apply cleanup_dirs_keeps_config | intros _].
  apply keeps_config_bind; [|intros _; apply cleanup_files_keeps_config].
  destruct dry_run; [apply keeps_config_ret | now intros s].
Qed.

(** ** The merge of the extras *)

Lemma nonempty_list_false {A : Type} (l : list A) : nonempty_list l = false -> l = [].
Proof. now destruct l. Qed.

Lemma Store_eta (s : Store FS) : mkStore (fs s) (cfg s) = s.
Proof. now destruct s. Qed.

Lemma Config_eta (c : Config) :
  mkConfig (mkCleanConfig (directories (cfg_clean c)) (files (cfg_clean c))
                          (extra_directories (cfg_clean c)) (extra_files (cfg_clean c)))
           (cfg_clean_all c) = c.
Proof. now destruct c as [[] ?]. Qed.

(** The first lines of [clean], up to the call of the contributors:
    what follows them runs on the store with the effective lists. *)
Lemma clean_merges_first (dry_run : bool) (s : Store FS) :
  clean dry_run s =
  (execute_cleanup_tasks cleanup_tasks dry_run ;;
   c1 <- get_config ;;
   cleanup_dirs (directories (cfg_clean c1)) dry_run "." ;;
   c2 <- get_config ;;
   cleanup_files (files (cfg_clean c2)) dry_run ".")
    (mkStore (fs s) (effective_config (cfg s))).
Proof.
  unfold clean. rewrite bind_get_config.
  set (k := bind (execute_cleanup_tasks cleanup_tasks dry_run) _).
  assert (Hmerge : forall (xd xf : list string),
             ((if nonempty_list xd then update_config (extend_directories xd) else ret tt) ;;
              (if nonempty_list xf then update_config (extend_files xf) else ret tt) ;;
              k) s =
             k (mkStore (fs s) (extend_files xf (extend_directories xd (cfg s))))).
  { intros xd xf.
    destruct xd as [|d xd]; cbn [nonempty_list];
      [rewrite bind_ret_l | rewrite bind_update_config];
      (destruct xf as [|f xf]; cbn [nonempty_list];
       [rewrite bind_ret_l | rewrite bind_update_config]);
      f_equal; unfold extend_files, extend_directories;
      cbn [fs cfg cfg_clean cfg_clean_all directories files extra_directories extra_files];
      rewrite ?app_nil_r, ?Config_eta, ?Store_eta; reflexivity. }
  rewrite Hmerge. reflexivity.
Qed.

Lemma evs_execute_cleanup_tasks (tasks : list Task) (dry_run : bool) :
  forall s, evs (execute_cleanup_tasks tasks dry_run s) =
            contributors_trace tasks dry_run s.
Proof.
  induction tasks as [|t more IH]; intros s; cbn [execute_cleanup_tasks contributors_trace].
  - reflexivity.
  - rewrite bind_print. cbn [evs]. f_equal. rewrite evs_bind. f_equal.
    destruct (res (task_body t dry_run s)); cbn [is_ok]; [apply IH | reflexivity].
Qed.

(** C4.  [clean_all] is, in this order: the directory deleter on
    [clean_all.directories], the file deleter on [clean_all.files],
    the contributors of [cleanup_all_tasks], and last the whole of
    [clean], each on the store the one before left; a step that raises
    ends the run there. *)
Theorem clean_all_runs_clean_last :
  forall (dry_run : bool) (s : Store FS),
    let o1 := cleanup_dirs (or_empty (all_directories (cfg_clean_all (cfg s))))
                           dry_run "." s in
    let o2 := cleanup_files (or_empty (all_files (cfg_clean_all (cfg (st o1)))))
                            dry_run "." (st o1) in
    let o3 := execute_cleanup_tasks cleanup_all_tasks dry_run (st o2) in
    let o4 := clean dry_run (st o3) in
    clean_all dry_run s =
    match res o1, res o2, res o3 with
    | Ok _, Ok _, Ok _ =>
        mkOut (res o4) (st o4) (evs o1 ++ evs o2 ++ evs o3 ++ evs o4)
    | Ok _, Ok _, Raise e => mkOut (Raise e) (st o3) (evs o1 ++ evs o2 ++ evs o3)
    | Ok _, Raise e, _ => mkOut (Raise e) (st o2) (evs o1 ++ evs o2)
    | Raise e, _, _ => mkOut (Raise e) (st o1) (evs o1)
    end.
Proof.
  intros dry_run s. cbv zeta. unfold clean_all.
  rewrite bind_get_config, bind_unfold.
  destruct (res (cleanup_dirs _ dry_run "." s)) as [[]|e1].
  2:{ repeat match goal with
             | |- context [match res ?o with Ok _ => _ | Raise _ => _ end] =>
                 destruct (res o)
             end; reflexivity. }
  cbv zeta. rewrite bind_get_config, bind_unfold.
  destruct (res (cleanup_files _ dry_run "." _)) as [[]|e2].
  2:{ repeat match goal with
             | |- context [match res ?o with Ok _ => _ | Raise _ => _ end] =>
                 destruct (res o)
             end; reflexivity. }
  cbv zeta. rewrite bind_unfold.
  destruct (res (execute_cleanup_tasks cleanup_all_tasks dry_run _)) as [[]|e3];
    reflexivity.
Qed.

(** The second read of the configuration in [clean] sees what the
    store held before the directory deleter ran. *)
Lemma own_deletions_read_config (D F : list string) (dry_run : bool) (s : Store FS) :
  files (cfg_clean (cfg s)) = F ->
  (cleanup_dirs D dry_run "." ;;
   c2 <- get_config ;;
   cleanup_files (files (cfg_clean c2)) dry_run ".") s =
  (cleanup_dirs D dry_run "." ;; cleanup_files F dry_run ".") s.
Proof.
  intros HF. rewrite 2 (bind_unfold (cleanup_dirs D dry_run ".")).
  destruct (res (cleanup_dirs D dry_run "." s)) as [[]|e]; [|reflexivity].
  cbv zeta. now rewrite bind_get_config, cleanup_dirs_keeps_config, HF.
Qed.

(** C5.  [clean] runs on the effective lists: what follows the first
    lines sees [directories] with [extra_directories] appended and
    [files] with [extra_files] appended, a missing or empty extra list
    adding nothing.  When the contributors leave the configuration
    alone, these lists are what the two deleters are called with. *)
Theorem clean_appends_extras :
  forall (dry_run : bool) (s : Store FS),
    clean dry_run s =
    (execute_cleanup_tasks cleanup_tasks dry_run ;;
     c1 <- get_config ;;
     cleanup_dirs (directories (cfg_clean c1)) dry_run "." ;;
     c2 <- get_config ;;
     cleanup_files (files (cfg_clean c2)) dry_run ".")
      (mkStore (fs s) (effective_config (cfg s))) /\
    ((forall t, In t cleanup_tasks -> keeps_config (task_body t dry_run)) ->
     clean dry_run s =
     (execute_cleanup_tasks cleanup_tasks dry_run ;;
      cleanup_dirs (directories (cfg_clean (cfg s)) ++
                    or_empty (extra_directories (cfg_clean (cfg s)))) dry_run "." ;;
      cleanup_files (files (cfg_clean (cfg s)) ++
                     or_empty (extra_files (cfg_clean (cfg s)))) dry_run ".")
       (mkStore (fs s) (effective_config (cfg s)))).
Proof.
  intros dry_run s. split; [apply clean_merges_first|].
  intros Hkeep. rewrite clean_merges_first.
  set (s1 := mkStore (fs s) (effective_config (cfg s))).
  pose proof (execute_cleanup_tasks_keeps_config cleanup_tasks dry_run Hkeep s1) as He.
  rewrite 2 (bind_unfold (execute_cleanup_tasks cleanup_tasks dry_run)).
  destruct (res (execute_cleanup_tasks cleanup_tasks dry_run s1)) as [[]|e]; [|reflexivity].
  cbv zeta. rewrite bind_get_config, He.
  rewrite (own_deletions_read_config _ (files (cfg_clean (cfg s1)))) by now rewrite He.
  reflexivity.
Qed.


(** C7.  The contributors of a registry run in the order of
    registration, each announced by its CLEANUP TASK line and run to its
    end before the next; and in [clean] all of this comes before
    anything the two deleters of [clean] itself print or remove. *)
Theorem clean_runs_contributors_first :
  forall (dry_run : bool) (s : Store FS),
    (forall tasks s', evs (execute_cleanup_tasks tasks dry_run s') =
                      contributors_trace tasks dry_run s') /\
    let s1 := mkStore (fs s) (effective_config (cfg s)) in
    let o1 := execute_cleanup_tasks cleanup_tasks dry_run s1 in
    let o2 := cleanup_dirs (directories (cfg_clean (cfg (st o1)))) dry_run "." (st o1) in
    let o3 := cleanup_files (files (cfg_clean (cfg (st o2)))) dry_run "." (st o2) in
    evs (clean dry_run s) =
    contributors_trace cleanup_tasks dry_run s1 ++
    (if is_ok (res o1)
     then evs o2 ++ (if is_ok (res o2) then evs o3 else [])
     else []).
Proof.
  intros dry_run s. split; [intros; apply evs_execute_cleanup_tasks|].
  cbv zeta. rewrite clean_merges_first.
  set (s1 := mkStore (fs s) (effective_config (cfg s))).
  rewrite evs_bind, evs_execute_cleanup_tasks. f_equal.
  destruct (res (execute_cleanup_tasks cleanup_tasks dry_run s1)) as [[]|e];
    cbn [is_ok]; [|reflexivity].
  rewrite bind_get_config, evs_bind. f_equal.
  destruct (res (cleanup_dirs _ dry_run "." _)) as [[]|e]; cbn [is_ok]; [|reflexivity].
  now rewrite bind_get_config.
Qed.

(** ** Dry runs *)

Lemma no_mutation_bind {A B : Type} (m : M FS A) (k : A -> M FS B) :
  no_mutation m -> (forall a, no_mutation (k a)) -> no_mutation (bind m k).
Proof.
  intros Hm Hk s. destruct (Hm s) as [Hfs Hev].
  rewrite st_bind, evs_bind. destruct (res (m s)) as [a|e].
  - destruct (Hk a (st (m s))) as [Hfs' Hev']. split; [congruence|].
    apply Forall_app. now split.
  - split; [assumption | now rewrite app_nil_r].
Qed.

Lemma no_mutation_ret {A : Type} (a : A) : no_mutation (ret a).
Proof. intros s. split; [reflexivity | constructor]. Qed.

Lemma no_mutation_print (line : string) : no_mutation (print line).
Proof. intros s. split; [reflexivity | now repeat constructor]. Qed.

Lemma no_mutation_get_config : no_mutation get_config.
Proof. intros s. split; [reflexivity | constructor]. Qed.

Lemma no_mutation_update_config (f : Config -> Config) : no_mutation (update_config f).
Proof. intros s. split; [reflexivity | constructor]. Qed.

Lemma no_mutation_path_glob (pattern dir : string) : no_mutation (path_glob pattern dir).
Proof. intros s. split; [reflexivity | constructor]. Qed.

Lemma cleanup_dirs_each_dry (candidates : list string) :
  forall n, no_mutation (cleanup_dirs_each candidates true n).
Proof.
  induction candidates as [|d rest IH]; intros n; cbn [cleanup_dirs_each].
  - apply no_mutation_ret.
  - destruct (startswith sys_executable (abspath d)).
    { apply no_mutation_bind; [apply no_mutation_print | intros; apply IH]. }
    destruct (startswith (abspath d) python_basedir).
    { apply no_mutation_bind; [|intros; apply IH].
      destruct (Nat.leb n 4); [apply no_mutation_print | apply no_mutation_ret]. }
    apply no_mutation_bind; [apply no_mutation_print | intros; apply IH].
Qed.

Lemma cleanup_dirs_dry (patterns : list string) (workdir : string) :
  no_mutation (cleanup_dirs patterns true workdir).
Proof.
  unfold cleanup_dirs. apply no_mutation_bind; [|intros; apply no_mutation_ret].
  generalize 0. induction patterns as [|pat more IH]; intros n; cbn [cleanup_dirs_loop].
  - apply no_mutation_ret.
  - apply no_mutation_bind; [apply no_mutation_path_glob | intros cands].
    apply no_mutation_bind; [apply cleanup_dirs_each_dry | intros; apply IH].
Qed.

Lemma cleanup_files_each_dry (candidates : list string) :
  forall acc, no_mutation (cleanup_files_each candidates true acc).
Proof.
  induction candidates as [|f rest IH]; intros acc; cbn [cleanup_files_each].
  - apply no_mutation_ret.
  - destruct (startswith (abspath f) python_basedir); [apply IH|].
    apply no_mutation_bind; [apply no_mutation_print | intros; apply IH].
Qed.

Lemma cleanup_files_dry (patterns : list string) (workdir : string) :
  no_mutation (cleanup_files patterns true workdir).
Proof.
  unfold cleanup_files. apply no_mutation_bind; [|intros; apply no_mutation_ret].
  generalize (mkFileErrors None 0).
  induction patterns as [|pat more IH]; intros acc; cbn [cleanup_files_loop].
  - apply no_mutation_ret.
  - apply no_mutation_bind; [apply no_mutation_path_glob | intros cands].
    apply no_mutation_bind; [apply cleanup_files_each_dry | intros; apply IH].
Qed.

Lemma clean_python_dry : no_mutation (clean_python true).
Proof.
  unfold clean_python. cbn [negb].
  apply no_mutation_bind; [apply cleanup_dirs_dry | intros _].
  apply no_mutation_bind; [apply no_mutation_ret | intros _; apply cleanup_files_dry].
Qed.

Lemma execute_cleanup_tasks_dry (tasks : list Task) :
  (forall t, In t tasks -> no_mutation (task_body t true)) ->
  no_mutation (execute_cleanup_tasks tasks true).
Proof.
  induction tasks as [|t more IH]; intros Hall; cbn [execute_cleanup_tasks].
  - apply no_mutation_ret.
  - apply no_mutation_bind; [apply no_mutation_print | intros _].
    apply no_mutation_bind; [apply Hall; now left | intros _].
    apply IH. intros t' Hin. apply Hall. now right.
Qed.

Lemma clean_dry :
  (forall t, In t cleanup_tasks -> no_mutation (task_body t true)) ->
  no_mutation (clean true).
Proof.
  intros Hall. unfold clean.
  apply no_mutation_bind; [apply no_mutation_get_config | intros c].
  apply no_mutation_bind.
  { destruct (nonempty_list _); [apply no_mutation_update_config | apply no_mutation_ret]. }
  intros _. apply no_mutation_bind.
  { destruct (nonempty_list _); [apply no_mutation_update_config | apply no_mutation_ret]. }
  intros _. apply no_mutation_bind; [now apply execute_cleanup_tasks_dry | intros _].
  apply no_mutation_bind; [apply no_mutation_get_config | intros c1].
  apply no_mutation_bind; [apply cleanup_dirs_dry | intros _].
  apply no_mutation_bind; [apply no_mutation_get_config | intros c2].
  apply cleanup_files_dry.
Qed.













(** ** Running [clean] twice *)

Section Idempotence.

Context {laws : Lawful sys}.

(** The gate of the directory deleter and of the file deleter. *)
Definition dir_protected (p : string) : bool :=
  startswith sys_executable (abspath p) || startswith (abspath p) python_basedir.

Definition file_protected (p : string) : bool :=
  startswith (abspath p) python_basedir.

(** No pattern yields [p] any more. *)
Definition gone (p : string) (t : FS) : Prop :=
  forall dir pattern, ~ In p (glob t dir pattern).

(** Unlinking [p] changes nothing, on [t] and on any smaller tree. *)
Definition stuck (p : string) (t : FS) : Prop :=
  forall t', fs_le t' t -> fst (remove_p p t') = t'.

(** All that a pattern still yields is out of reach of the deleter. *)
Definition dirs_swept (dir pattern : string) (t : FS) : Prop :=
  forall p, In p (glob t dir pattern) -> dir_protected p = true.

Definition files_swept (dir pattern : string) (t : FS) : Prop :=
  forall p, In p (glob t dir pattern) -> file_protected p = true \/ stuck p t.

(** The directory the patterns of a deleter are expanded in. *)
Definition glob_dir (workdir : string) : string :=
  if nonempty_str workdir then workdir else cwd.

(** A task that only takes entries away, and that finds nothing left to
    do once it has returned, however much more has been taken away since. *)
Definition settles (m : M FS unit) : Prop :=
  (forall s, is_ok (res (m s)) = true -> fs_le (fs (st (m s))) (fs s)) /\
  (forall s, is_ok (res (m s)) = true ->
             forall s', fs_le (fs s') (fs (st (m s))) -> fs (st (m s')) = fs s').

(** What [clean] does once the extras are merged, on a real run. *)
Definition clean_steps : M FS unit :=
  execute_cleanup_tasks cleanup_tasks false ;;
  c1 <- get_config ;;
  cleanup_dirs (directories (cfg_clean c1)) false "." ;;
  c2 <- get_config ;;
  cleanup_files (files (cfg_clean c2)) false ".".

Lemma gone_mono (p : string) (t' t : FS) : fs_le t' t -> gone p t -> gone p t'.
Proof. intros Hle Hg dir pat Hin. apply (Hg dir pat). eapply glob_mono; eassumption. Qed.

Lemma stuck_mono (p : string) (t' t : FS) : fs_le t' t -> stuck p t -> stuck p t'.
Proof. intros Hle Hs t'' Hle'. apply Hs. eapply fs_le_trans; eassumption. Qed.

Lemma dirs_swept_mono (dir pat : string) (t' t : FS) :
  fs_le t' t -> dirs_swept dir pat t -> dirs_swept dir pat t'.
Proof. intros Hle Hs p Hin. apply Hs. eapply glob_mono; eassumption. Qed.

Lemma files_swept_mono (dir pat : string) (t' t : FS) :
  fs_le t' t -> files_swept dir pat t -> files_swept dir pat t'.
Proof.
  intros Hle Hs p Hin. destruct (Hs p) as [H|H].
  - eapply glob_mono; eassumption.
  - now left.
  - right. eapply stuck_mono; eassumption.
Qed.

(** *** The directory deleter *)

(** A loop over the candidates that returns: each candidate is behind the
    gate or gone. *)
Lemma cleanup_dirs_each_sweeps (candidates : list string) :
  forall n s,
    is_ok (res (cleanup_dirs_each candidates false n s)) = true ->
    fs_le (fs (st (cleanup_dirs_each candidates false n s))) (fs s) /\
    forall p, In p candidates ->
              dir_protected p = true \/
              gone p (fs (st (cleanup_dirs_each candidates false n s))).
Proof.
  induction candidates as [|d rest IH]; intros n s; cbn [cleanup_dirs_each].
  - intros _. split; [apply fs_le_refl | intros p []].
  - unfold dir_protected in *.
    destruct (startswith sys_executable (abspath d)) eqn:Hexe.
    { rewrite bind_print. cbn [res st]. intros Hok.
      destruct (IH n s Hok) as [Hle Hall]. split; [exact Hle|].
      intros p [<-|Hin]; [left; now rewrite Hexe | now apply Hall]. }
    destruct (startswith (abspath d) python_basedir) eqn:Hbase.
    { assert (Hrest : is_ok (res (cleanup_dirs_each rest false (n + 1) s)) = true ->
                      fs_le (fs (st (cleanup_dirs_each rest false (n + 1) s))) (fs s) /\
                      forall p, In p (d :: rest) ->
                                startswith sys_executable (abspath p) ||
                                startswith (abspath p) python_basedir = true \/
                                gone p (fs (st (cleanup_dirs_each rest false (n + 1) s)))).
      { intros Hok. destruct (IH (n + 1) s Hok) as [Hle Hall]. split; [exact Hle|].
        intros p [<-|Hin]; [left; now rewrite Hexe, Hbase | now apply Hall]. }
      destruct (Nat.leb n 4); [rewrite bind_print; cbn [res st] | rewrite bind_ret_l];
        exact Hrest. }
    rewrite bind_print. cbn [res st]. rewrite res_bind, st_bind.
    change (res (call_rmtree_p d s)) with (outcome (snd (rmtree_p d (fs s)))).
    change (st (call_rmtree_p d s)) with (mkStore (fst (rmtree_p d (fs s))) (cfg s)).
    destruct (snd (rmtree_p d (fs s))) as [e|] eqn:Hrm; cbn [outcome]; [discriminate|].
    destruct (rmtree_p_ok d (fs s) Hrm) as [Hle1 Hgone].
    set (s1 := mkStore (fst (rmtree_p d (fs s))) (cfg s)).
    intros Hok. destruct (IH n s1 Hok) as [Hle Hall]. split.
    + eapply fs_le_trans; [exact Hle | exact Hle1].
    + intros p [<-|Hin]; [|now apply Hall].
      right. eapply gone_mono; [exact Hle | exact Hgone].
Qed.

Lemma cleanup_dirs_loop_sweeps (patterns : list string) (workdir : string) :
  forall n s,
    is_ok (res (cleanup_dirs_loop patterns false workdir n s)) = true ->
    fs_le (fs (st (cleanup_dirs_loop patterns false workdir n s))) (fs s) /\
    forall pat, In pat patterns ->
                dirs_swept (glob_dir workdir) pat
                           (fs (st (cleanup_dirs_loop patterns false workdir n s))).
Proof.
  induction patterns as [|pat more IH]; intros n s; cbn [cleanup_dirs_loop].
  - intros _. split; [apply fs_le_refl | intros p []].
  - rewrite bind_unfold. cbn [path_glob res st evs]. cbv zeta. cbn [res st].
    fold (glob_dir workdir).
    rewrite res_bind, st_bind.
    pose proof (cleanup_dirs_each_sweeps
                  (glob (fs s) (glob_dir workdir) pat) n s) as Heach.
    destruct (res (cleanup_dirs_each _ false n s)) as [n1|e]; [|discriminate].
    destruct (Heach eq_refl) as [Hle1 Hall1]. clear Heach.
    set (s1 := st (cleanup_dirs_each _ false n s)) in *.
    intros Hok. destruct (IH n1 s1 Hok) as [Hle Hall]. split.
    + eapply fs_le_trans; eassumption.
    + intros pat' [<-|Hin]; [|now apply Hall].
      intros p Hp.
      destruct (Hall1 p) as [H|H].
      * eapply glob_mono; [|exact Hp]. eapply fs_le_trans; [exact Hle | exact Hle1].
      * exact H.
      * exfalso. eapply (gone_mono p _ _ Hle H). exact Hp.
Qed.

(** Candidates that are all behind the gate: the loop touches nothing. *)
Lemma cleanup_dirs_each_idle (candidates : list string) :
  (forall p, In p candidates -> dir_protected p = true) ->
  forall n s, st (cleanup_dirs_each candidates false n s) = s.
Proof.
  induction candidates as [|d rest IH]; intros Hall n s; cbn [cleanup_dirs_each].
  - reflexivity.
  - assert (Hd : dir_protected d = true) by (apply Hall; now left).
    assert (Hrest : forall p, In p rest -> dir_protected p = true)
      by (intros p Hp; apply Hall; now right).
    unfold dir_protected in Hd.
    destruct (startswith sys_executable (abspath d)).
    { rewrite bind_print. cbn [st]. now apply IH. }
    cbn [orb] in Hd. rewrite Hd.
    destruct (Nat.leb n 4); [rewrite bind_print; cbn [st] | rewrite bind_ret_l];
      now apply IH.
Qed.

Lemma cleanup_dirs_loop_idle (patterns : list string) (workdir : string) :
  forall n s,
    (forall pat, In pat patterns -> dirs_swept (glob_dir workdir) pat (fs s)) ->
    st (cleanup_dirs_loop patterns false workdir n s) = s.
Proof.
  induction patterns as [|pat more IH]; intros n s Hall; cbn [cleanup_dirs_loop].
  - reflexivity.
  - rewrite st_bind. cbn [path_glob res st]. fold (glob_dir workdir).
    rewrite st_bind.
    assert (Hidle : forall n', st (cleanup_dirs_each
                                     (glob (fs s) (glob_dir workdir) pat) false n' s) = s).
    { intros n'. apply cleanup_dirs_each_idle. apply Hall. now left. }
    destruct (res (cleanup_dirs_each _ false n s)) as [n1|e]; [|apply Hidle].
    rewrite Hidle. apply IH. intros pat' Hin. apply Hall. now right.
Qed.

Lemma cleanup_dirs_idle (patterns : list string) (workdir : string) (s : Store FS) :
  (forall pat, In pat patterns -> dirs_swept (glob_dir workdir) pat (fs s)) ->
  st (cleanup_dirs patterns false workdir s) = s.
Proof.
  intros Hall. unfold cleanup_dirs. rewrite st_bind.
  pose proof (cleanup_dirs_loop_idle patterns workdir 0 s Hall) as H.
  destruct (res (cleanup_dirs_loop patterns false workdir 0 s)); cbn [ret st]; exact H.
Qed.

Lemma cleanup_dirs_sweeps (patterns : list string) (workdir : string) (s : Store FS) :
  is_ok (res (cleanup_dirs patterns false workdir s)) = true ->
  fs_le (fs (st (cleanup_dirs patterns false workdir s))) (fs s) /\
  forall pat, In pat patterns ->
              dirs_swept (glob_dir workdir) pat
                         (fs (st (cleanup_dirs patterns false workdir s))).
Proof.
  unfold cleanup_dirs. rewrite res_bind, st_bind.
  pose proof (cleanup_dirs_loop_sweeps patterns workdir 0 s) as H.
  destruct (res (cleanup_dirs_loop patterns false workdir 0 s)); [|discriminate].
  intros _. cbn [ret st]. now apply H.
Qed.

(** *** The file deleter *)

(** One unlink, caught or not: the tree is what [remove_p] made of it;
    and if the loop goes on, the file is gone or cannot be unlinked. *)
Lemma try_unlink_sweeps (file_ : string) (acc : FileErrors) (s : Store FS) :
  let o := try_except_oserror (call_remove_p file_ ;; ret acc)
                              (fun e => unlink_failed e acc) s in
  fs (st o) = fst (remove_p file_ (fs s)) /\
  (is_ok (res o) = true ->
   fs_le (fs (st o)) (fs s) /\ (gone file_ (fs (st o)) \/ stuck file_ (fs (st o)))).
Proof.
  unfold try_except_oserror, bind, call_remove_p, unlink_failed, print, ret.
  cbn [res st evs].
  destruct (snd (remove_p file_ (fs s))) as [e|] eqn:Hrm; cbn [outcome res st evs].
  - destruct (remove_p_failed file_ (fs s) e Hrm) as [Hsame Hstuck].
    destruct (exn_oserror e); cbn [res st fs]; (split; [reflexivity|]);
      [|discriminate].
    intros _. rewrite Hsame. split; [apply fs_le_refl | right; exact Hstuck].
  - destruct (remove_p_ok file_ (fs s) Hrm) as [Hle Hgone].
    cbn [fs]. split; [reflexivity|]. intros _. split; [exact Hle | left; exact Hgone].
Qed.

Lemma cleanup_files_each_sweeps (candidates : list string) :
  forall acc s,
    is_ok (res (cleanup_files_each candidates false acc s)) = true ->
    fs_le (fs (st (cleanup_files_each candidates false acc s))) (fs s) /\
    forall p, In p candidates ->
              file_protected p = true \/
              gone p (fs (st (cleanup_files_each candidates false acc s))) \/
              stuck p (fs (st (cleanup_files_each candidates false acc s))).
Proof.
  induction candidates as [|f rest IH]; intros acc s; cbn [cleanup_files_each].
  - intros _. split; [apply fs_le_refl | intros p []].
  - unfold file_protected in *.
    destruct (startswith (abspath f) python_basedir) eqn:Hbase.
    { intros Hok. destruct (IH acc s Hok) as [Hle Hall]. split; [exact Hle|].
      intros p [<-|Hin]; [now left | now apply Hall]. }
    rewrite bind_print. cbn [res st]. rewrite res_bind, st_bind.
    destruct (try_unlink_sweeps f acc s) as [_ Hone]. cbv zeta in Hone.
    destruct (res (try_except_oserror _ _ s)) as [acc1|e]; [|discriminate].
    destruct (Hone eq_refl) as [Hle1 Hf]. clear Hone.
    set (s1 := st (try_except_oserror _ _ s)) in *.
    intros Hok. destruct (IH acc1 s1 Hok) as [Hle Hall]. split.
    + eapply fs_le_trans; eassumption.
    + intros p [<-|Hin]; [|now apply Hall].
      right. destruct Hf as [Hg|Hs].
      * left. eapply gone_mono; eassumption.
      * right. eapply stuck_mono; eassumption.
Qed.

Lemma cleanup_files_loop_sweeps (patterns : list string) (workdir : string) :
  forall acc s,
    is_ok (res (cleanup_files_loop patterns false workdir acc s)) = true ->
    fs_le (fs (st (cleanup_files_loop patterns false workdir acc s))) (fs s) /\
    forall pat, In pat patterns ->
                files_swept (glob_dir workdir) pat
                            (fs (st (cleanup_files_loop patterns false workdir acc s))).
Proof.
  induction patterns as [|pat more IH]; intros acc s; cbn [cleanup_files_loop].
  - intros _. split; [apply fs_le_refl | intros p []].
  - rewrite bind_unfold. cbn [path_glob res st evs]. cbv zeta. cbn [res st].
    fold (glob_dir workdir).
    rewrite res_bind, st_bind.
    pose proof (cleanup_files_each_sweeps
                  (glob (fs s) (glob_dir workdir) pat) acc s) as Heach.
    destruct (res (cleanup_files_each _ false acc s)) as [acc1|e]; [|discriminate].
    destruct (Heach eq_refl) as [Hle1 Hall1]. clear Heach.
    set (s1 := st (cleanup_files_each _ false acc s)) in *.
    intros Hok. destruct (IH acc1 s1 Hok) as [Hle Hall]. split.
    + eapply fs_le_trans; eassumption.
    + intros pat' [<-|Hin]; [|now apply Hall].
      intros p Hp.
      destruct (Hall1 p) as [H|[H|H]].
      * eapply glob_mono; [|exact Hp]. eapply fs_le_trans; [exact Hle | exact Hle1].
      * now left.
      * exfalso. eapply (gone_mono p _ _ Hle H). exact Hp.
      * right. eapply stuck_mono; eassumption.
Qed.

Lemma cleanup_files_each_idle (candidates : list string) :
  forall acc s,
    (forall p, In p candidates -> file_protected p = true \/ stuck p (fs s)) ->
    fs (st (cleanup_files_each candidates false acc s)) = fs s.
Proof.
  induction candidates as [|f rest IH]; intros acc s Hall; cbn [cleanup_files_each].
  - reflexivity.
  - assert (Hrest : forall p, In p rest -> file_protected p = true \/ stuck p (fs s))
      by (intros p Hp; apply Hall; now right).
    destruct (Hall f (or_introl eq_refl)) as [Hf|Hf]; unfold file_protected in Hf.
    { rewrite Hf. now apply IH. }
    destruct (startswith (abspath f) python_basedir); [now apply IH|].
    rewrite bind_print. cbn [st]. rewrite st_bind.
    destruct (try_unlink_sweeps f acc s) as [Hfs _]. cbv zeta in Hfs.
    rewrite (Hf (fs s) (fs_le_refl (fs s))) in Hfs.
    destruct (res (try_except_oserror _ _ s)) as [acc1|e]; [|exact Hfs].
    rewrite IH; [exact Hfs|]. now rewrite Hfs.
Qed.

Lemma cleanup_files_loop_idle (patterns : list string) (workdir : string) :
  forall acc s,
    (forall pat, In pat patterns -> files_swept (glob_dir workdir) pat (fs s)) ->
    fs (st (cleanup_files_loop patterns false workdir acc s)) = fs s.
Proof.
  induction patterns as [|pat more IH]; intros acc s Hall; cbn [cleanup_files_loop].
  - reflexivity.
  - rewrite st_bind. cbn [path_glob res st]. fold (glob_dir workdir).
    rewrite st_bind.
    assert (Hidle : forall acc', fs (st (cleanup_files_each
                                           (glob (fs s) (glob_dir workdir) pat)
                                           false acc' s)) = fs s).
    { intros acc'. apply cleanup_files_each_idle. apply Hall. now left. }
    destruct (res (cleanup_files_each _ false acc s)) as [acc1|e]; [|apply Hidle].
    rewrite IH; [apply Hidle|].
    rewrite Hidle. intros pat' Hin. apply Hall. now right.
Qed.

Lemma cleanup_files_idle (patterns : list string) (workdir : string) (s : Store FS) :
  (forall pat, In pat patterns -> files_swept (glob_dir workdir) pat (fs s)) ->
  fs (st (cleanup_files patterns false workdir s)) = fs s.
Proof.
  intros Hall. unfold cleanup_files. rewrite st_bind.
  pose proof (cleanup_files_loop_idle patterns workdir (mkFileErrors None 0) s Hall) as H.
  destruct (res (cleanup_files_loop patterns false workdir _ s)); cbn [andb ret st];
    exact H.
Qed.

Lemma cleanup_files_sweeps (patterns : list string) (workdir : string) (s : Store FS) :
  is_ok (res (cleanup_files patterns false workdir s)) = true ->
  fs_le (fs (st (cleanup_files patterns false workdir s))) (fs s) /\
  forall pat, In pat patterns ->
              files_swept (glob_dir workdir) pat
                          (fs (st (cleanup_files patterns false workdir s))).
Proof.
  unfold cleanup_files. rewrite res_bind, st_bind.
  pose proof (cleanup_files_loop_sweeps patterns workdir (mkFileErrors None 0) s) as H.
  destruct (res (cleanup_files_loop patterns false workdir _ s)); [|discriminate].
  intros _. cbn [andb ret st]. now apply H.
Qed.

(** *** Tasks that settle *)

Lemma settles_seq (m1 m2 : M FS unit) :
  settles m1 -> settles m2 -> settles (m1 ;; m2).
Proof.
  intros [Hmono1 Hstab1] [Hmono2 Hstab2]. split.
  - intros s. rewrite res_bind, st_bind.
    destruct (res (m1 s)) as [[]|e] eqn:H1; [|discriminate].
    intros H2. eapply fs_le_trans; [now apply Hmono2 | apply Hmono1; now rewrite H1].
  - intros s. rewrite res_bind, st_bind.
    destruct (res (m1 s)) as [[]|e] eqn:H1; [|discriminate].
    intros H2 s' Hle.
    assert (Hidle1 : fs (st (m1 s')) = fs s').
    { apply (Hstab1 s); [now rewrite H1|].
      eapply fs_le_trans; [exact Hle | now apply Hmono2]. }
    rewrite st_bind. destruct (res (m1 s')); [|exact Hidle1].
    rewrite <- Hidle1. apply (Hstab2 (st (m1 s)) H2). now rewrite Hidle1.
Qed.

Lemma settles_print (line : string) : settles (print line).
Proof. split; intros s _; [apply fs_le_refl | reflexivity]. Qed.

Lemma settles_ret : settles (ret tt).
Proof. split; intros s _; [apply fs_le_refl | reflexivity]. Qed.

Lemma cleanup_dirs_settles (patterns : list string) (workdir : string) :
  settles (cleanup_dirs patterns false workdir).
Proof.
  split.
  - intros s Hok. now apply cleanup_dirs_sweeps.
  - intros s Hok s' Hle. rewrite cleanup_dirs_idle; [reflexivity|].
    intros pat Hin. eapply dirs_swept_mono; [exact Hle|].
    now apply cleanup_dirs_sweeps.
Qed.

Lemma cleanup_files_settles (patterns : list string) (workdir : string) :
  settles (cleanup_files patterns false workdir).
Proof.
  split.
  - intros s Hok. now apply cleanup_files_sweeps.
  - intros s Hok s' Hle. apply cleanup_files_idle.
    intros pat Hin. eapply files_swept_mono; [exact Hle|].
    now apply cleanup_files_sweeps.
Qed.

Lemma execute_cleanup_tasks_settles (tasks : list Task) :
  (forall t, In t tasks -> settles (task_body t false)) ->
  settles (execute_cleanup_tasks tasks false).
Proof.
  induction tasks as [|t more IH]; intros Hall; cbn [execute_cleanup_tasks].
  - apply settles_ret.
  - apply settles_seq; [apply settles_print|].
    apply settles_seq; [apply Hall; now left|].
    apply IH. intros t' Hin. apply Hall. now right.
Qed.

(** [clean_python] settles when the external command does. *)
Lemma clean_python_settles :
  settles (ctx_run "py.cleanup") -> settles (clean_python false).
Proof.
  intros Hrun. unfold clean_python. cbn [negb].
  apply settles_seq; [apply cleanup_dirs_settles|].
  apply settles_seq; [exact Hrun | apply cleanup_files_settles].
Qed.

(** *** The orchestrator *)

Section SettlingTasks.

Hypothesis tasks_settle :
  forall t, In t cleanup_tasks ->
            settles (task_body t false) /\ keeps_config (task_body t false).

Lemma tasks_keep_config (s : Store FS) :
  cfg (st (execute_cleanup_tasks cleanup_tasks false s)) = cfg s.
Proof.
  apply execute_cleanup_tasks_keeps_config. intros t Hin. now apply tasks_settle.
Qed.

Lemma tasks_settled : settles (execute_cleanup_tasks cleanup_tasks false).
Proof.
  apply execute_cleanup_tasks_settles. intros t Hin. now apply tasks_settle.
Qed.

(** A run of the steps that returns leaves the configuration as it was,
    and every pattern of the two lists swept. *)
Lemma clean_steps_sweep (s1 : Store FS) :
  is_ok (res (clean_steps s1)) = true ->
  is_ok (res (execute_cleanup_tasks cleanup_tasks false s1)) = true /\
  cfg (st (clean_steps s1)) = cfg s1 /\
  fs_le (fs (st (clean_steps s1)))
        (fs (st (execute_cleanup_tasks cleanup_tasks false s1))) /\
  (forall pat, In pat (directories (cfg_clean (cfg s1))) ->
               dirs_swept (glob_dir ".") pat (fs (st (clean_steps s1)))) /\
  (forall pat, In pat (files (cfg_clean (cfg s1))) ->
               files_swept (glob_dir ".") pat (fs (st (clean_steps s1)))).
Proof.
  unfold clean_steps. rewrite res_bind, st_bind.
  pose proof (tasks_keep_config s1) as Hcfg2.
  destruct (res (execute_cleanup_tasks cleanup_tasks false s1)) as [[]|e];
    [|discriminate].
  set (s2 := st (execute_cleanup_tasks cleanup_tasks false s1)) in *.
  rewrite bind_get_config, res_bind, st_bind.
  pose proof (cleanup_dirs_keeps_config (directories (cfg_clean (cfg s2))) false "." s2)
    as Hcfg3.
  pose proof (cleanup_dirs_sweeps (directories (cfg_clean (cfg s2))) "." s2) as Hd.
  destruct (res (cleanup_dirs _ false "." s2)) as [[]|e]; [|discriminate].
  destruct (Hd eq_refl) as [Hle3 Hswept3]. clear Hd.
  set (s3 := st (cleanup_dirs _ false "." s2)) in *.
  rewrite bind_get_config.
  pose proof (cleanup_files_keeps_config (files (cfg_clean (cfg s3))) false "." s3)
    as Hcfg4.
  intros Hok.
  destruct (cleanup_files_sweeps (files (cfg_clean (cfg s3))) "." s3 Hok)
    as [Hle4 Hswept4].
  set (s4 := st (cleanup_files _ false "." s3)) in *.
  split; [reflexivity|]. split; [congruence|]. split.
  { eapply fs_le_trans; eassumption. }
  split.
  - intros pat Hin. eapply dirs_swept_mono; [exact Hle4|].
    apply Hswept3. now rewrite Hcfg2.
  - intros pat Hin. apply Hswept4. now rewrite Hcfg3, Hcfg2.
Qed.

(** On a store where the tasks find nothing to do and every pattern of
    the two lists is swept, the steps leave the filesystem as it is. *)
Lemma clean_steps_idle (s' : Store FS) :
  fs (st (execute_cleanup_tasks cleanup_tasks false s')) = fs s' ->
  (forall pat, In pat (directories (cfg_clean (cfg s'))) ->
               dirs_swept (glob_dir ".") pat (fs s')) ->
  (forall pat, In pat (files (cfg_clean (cfg s'))) ->
               files_swept (glob_dir ".") pat (fs s')) ->
  fs (st (clean_steps s')) = fs s'.
Proof.
  intros Hidle Hdirs Hfiles. unfold clean_steps. rewrite st_bind.
  pose proof (tasks_keep_config s') as Hcfg2.
  destruct (res (execute_cleanup_tasks cleanup_tasks false s')) as [[]|e];
    [|exact Hidle].
  set (s2 := st (execute_cleanup_tasks cleanup_tasks false s')) in *.
  rewrite bind_get_config, st_bind.
  assert (Hd : st (cleanup_dirs (directories (cfg_clean (cfg s2))) false "." s2) = s2).
  { apply cleanup_dirs_idle. rewrite Hcfg2, Hidle. exact Hdirs. }
  destruct (res (cleanup_dirs _ false "." s2)) as [[]|e]; rewrite Hd; [|exact Hidle].
  rewrite bind_get_config, cleanup_files_idle; [exact Hidle|].
  rewrite Hcfg2, Hidle. exact Hfiles.
Qed.

Lemma clean_real_twice (s : Store FS) :
  is_ok (res (clean false s)) = true ->
  fs (st (clean false (st (clean false s)))) = fs (st (clean false s)).
Proof.
  rewrite (clean_merges_first false (st (clean false s))).
  rewrite (clean_merges_first false s).
  fold clean_steps.
  set (s1 := mkStore (fs s) (effective_config (cfg s))).
  intros Hok.
  destruct (clean_steps_sweep s1 Hok) as [Htasks [Hcfg [Hle [Hdirs Hfiles]]]].
  set (s4 := st (clean_steps s1)) in *.
  apply (clean_steps_idle (mkStore (fs s4) (effective_config (cfg s4)))).
  - destruct tasks_settled as [_ Hstable].
    exact (Hstable s1 Htasks (mkStore (fs s4) (effective_config (cfg s4))) Hle).
  - cbn [fs cfg]. rewrite Hcfg. subst s1. cbn [cfg effective_config cfg_clean directories
                                                extra_directories].
    intros pat Hin. apply Hdirs. cbn [cfg effective_config cfg_clean directories].
    apply in_app_or in Hin. destruct Hin as [Hin|Hin]; [exact Hin|].
    apply in_or_app. now right.
  - cbn [fs cfg]. rewrite Hcfg. subst s1. cbn [cfg effective_config cfg_clean files
                                                extra_files].
    intros pat Hin. apply Hfiles. cbn [cfg effective_config cfg_clean files].
    apply in_app_or in Hin. destruct Hin as [Hin|Hin]; [exact Hin|].
    apply in_or_app. now right.
Qed.

End SettlingTasks.

(** C9.  Running [clean] a second time, on the store the first run left,
    gives the filesystem the first run gave.  For a real run: on a
    filesystem where taking entries away adds no match to a pattern, a
    deleter that returns has taken its path away, and a failed unlink
    changes nothing; with contributors that only take entries away, find
    nothing to do after they have returned, and leave the configuration
    alone; and when the first run returned.  For a dry run: with
    contributors that change nothing under [dry_run]. *)
Theorem clean_twice_is_clean_once :
  forall s : Store FS,
    ((forall t, In t cleanup_tasks ->
                settles (task_body t false) /\ keeps_config (task_body t false)) ->
     is_ok (res (clean false s)) = true ->
     fs (st (clean false (st (clean false s)))) = fs (st (clean false s))) /\
    ((forall t, In t cleanup_tasks -> no_mutation (task_body t true)) ->
     fs (st (clean true (st (clean true s)))) = fs (st (clean true s))).
Proof.
  intros s. split.
  - intros Htasks Hok. now apply clean_real_twice.
  - intros Htasks. now apply clean_dry.
Qed.

End Idempotence.

(** ** Further properties of the engine *)

(** A computation that returns and leaves the store as it found it. *)
Definition harmless {A : Type} (m : M FS A) : Prop :=
  forall s, is_ok (res (m s)) = true /\ st (m s) = s.

(** Every call of a deleter comes right after the line that names it,
    and nothing but lines and such calls occurs. *)
Inductive Announced : list Event -> Prop :=
| Announced_nil : Announced []
| Announced_print (line : string) (rest : list Event) :
    Announced rest -> Announced (EvPrint line :: rest)
| Announced_rmtree (directory : string) (rest : list Event) :
    Announced rest ->
    Announced (EvPrint ("RMTREE: " ++ directory) :: EvRmtree directory :: rest)
| Announced_unlink (file_ : string) (rest : list Event) :
    Announced rest ->
    Announced (EvPrint ("REMOVE: " ++ file_) :: EvUnlink file_ :: rest).

Definition is_unlink (e : Event) : bool :=
  match e with EvUnlink _ => true | _ => false end.

Definition is_rmtree (e : Event) : bool :=
  match e with EvRmtree _ => true | _ => false end.

Definition is_print (e : Event) : bool :=
  match e with EvPrint _ => true | _ => false end.

(** *** Dry runs return *)

Lemma harmless_bind {A B : Type} (m : M FS A) (k : A -> M FS B) :
  harmless m -> (forall a, harmless (k a)) -> harmless (bind m k).
Proof.
  intros Hm Hk s. destruct (Hm s) as [Hok Hst].
  rewrite res_bind, st_bind. destruct (res (m s)) as [a|e]; [|discriminate].
  rewrite Hst. apply Hk.
Qed.

Lemma harmless_ret {A : Type} (a : A) : harmless (ret a).
Proof. now intros s. Qed.

Lemma harmless_print (line : string) : harmless (print line).
Proof. now intros s. Qed.


Lemma cleanup_dirs_each_harmless (candidates : list string) :
  forall n, harmless (cleanup_dirs_each candidates true n).
Proof.
  induction candidates as [|d rest IH]; intros n; cbn [cleanup_dirs_each].
  - apply harmless_ret.
  - destruct (startswith sys_executable (abspath d)).
    { apply harmless_bind; [apply harmless_print | intros; apply IH]. }
    destruct (startswith (abspath d) python_basedir).
    { apply harmless_bind; [|intros; apply IH].
      destruct (Nat.leb n 4); [apply harmless_print | apply harmless_ret]. }
    apply harmless_bind; [apply harmless_print | intros; apply IH].
Qed.


Lemma cleanup_files_each_harmless (candidates : list string) :
  forall acc, harmless (cleanup_files_each candidates true acc).
Proof.
  induction candidates as [|f rest IH]; intros acc; cbn [cleanup_files_each].
  - apply harmless_ret.
  - destruct (startswith (abspath f) python_basedir); [apply IH|].
    apply harmless_bind; [apply harmless_print | intros; apply IH].
Qed.






(** *** Every removal is announced *)

Lemma Announced_app (a b : list Event) :
  Announced a -> Announced b -> Announced (a ++ b).
Proof.
  intros Ha Hb. induction Ha; cbn [app]; [exact Hb | | |]; now constructor.
Qed.

Lemma Announced_evs_bind {A B : Type} (m : M FS A) (k : A -> M FS B) (s : Store FS) :
  Announced (evs (m s)) ->
  (forall a, res (m s) = Ok a -> Announced (evs (k a (st (m s))))) ->
  Announced (evs (bind m k s)).
Proof.
  intros Hm Hk. rewrite evs_bind. apply Announced_app; [exact Hm|].
  destruct (res (m s)) as [a|e]; [now apply Hk | constructor].
Qed.

Lemma cleanup_dirs_each_announced (candidates : list string) (dry_run : bool) :
  forall n s, Announced (evs (cleanup_dirs_each candidates dry_run n s)).
Proof.
  induction candidates as [|d rest IH]; intros n s; cbn [cleanup_dirs_each].
  - constructor.
  - destruct (startswith sys_executable (abspath d)).
    { rewrite bind_print. cbn [evs]. constructor. apply IH. }
    destruct (startswith (abspath d) python_basedir).
    { apply Announced_evs_bind; [|intros; apply IH].
      destruct (Nat.leb n 4); cbn; repeat constructor. }
    destruct dry_run.
    { rewrite bind_print. cbn [evs]. constructor. apply IH. }
    rewrite bind_print. cbn [evs]. rewrite evs_bind. cbn [call_rmtree_p evs app].
    apply Announced_rmtree.
    destruct (res (call_rmtree_p d s)); [apply IH | constructor].
Qed.

Lemma cleanup_files_each_announced (candidates : list string) (dry_run : bool) :
  forall acc s, Announced (evs (cleanup_files_each candidates dry_run acc s)).
Proof.
  induction candidates as [|f rest IH]; intros acc s; cbn [cleanup_files_each].
  - constructor.
  - destruct (startswith (abspath f) python_basedir); [apply IH|].
    destruct dry_run.
    { rewrite bind_print. cbn [evs]. constructor. apply IH. }
    rewrite bind_print. cbn [evs]. rewrite evs_bind.
    assert (Htry : exists tail,
               evs (try_except_oserror (call_remove_p f ;; ret acc)
                                       (fun e => unlink_failed e acc) s) =
               EvUnlink f :: tail /\ Forall (fun e => is_print e = true) tail).
    { unfold try_except_oserror, bind, call_remove_p, unlink_failed, print, ret.
      cbn [res st evs]. destruct (snd (remove_p f (fs s))) as [e|]; cbn [outcome res st evs].
      - destruct (exn_oserror e); cbn [res st evs app]; eexists; split;
          try reflexivity; repeat constructor.
      - eexists; split; [reflexivity | constructor]. }
    destruct Htry as [tail [-> Htail]]. cbn [app]. apply Announced_unlink.
    apply Announced_app.
    + clear -Htail. induction Htail as [|e tail He _ IHt]; [constructor|].
      destruct e; try discriminate. now constructor.
    + destruct (res (try_except_oserror _ _ s)); [apply IH | constructor].
Qed.

Lemma cleanup_dirs_each_never_unlinks (candidates : list string) (dry_run : bool) :
  forall n s, Forall (fun e => is_unlink e = false)
                     (evs (cleanup_dirs_each candidates dry_run n s)).
Proof.
  induction candidates as [|d rest IHl]; intros n s; cbn [cleanup_dirs_each];
    [constructor|].
  destruct (startswith sys_executable (abspath d)).
  { rewrite bind_print. cbn [evs]. constructor; [reflexivity | apply IHl]. }
  destruct (startswith (abspath d) python_basedir).
  { apply Forall_evs_bind; [|intros; apply IHl].
    destruct (Nat.leb n 4); cbn; repeat constructor. }
  destruct dry_run; rewrite bind_print; cbn [evs];
    (constructor; [reflexivity|]); [apply IHl|].
  apply Forall_evs_bind; [repeat constructor | intros; apply IHl].
Qed.

Lemma cleanup_files_each_never_rmtrees (candidates : list string) (dry_run : bool) :
  forall acc s, Forall (fun e => is_rmtree e = false)
                       (evs (cleanup_files_each candidates dry_run acc s)).
Proof.
  induction candidates as [|f rest IHl]; intros acc s; cbn [cleanup_files_each];
    [constructor|].
  destruct (startswith (abspath f) python_basedir); [apply IHl|].
  destruct dry_run; rewrite bind_print; cbn [evs];
    (constructor; [reflexivity|]); [apply IHl|].
  apply Forall_evs_bind; [|intros; apply IHl].
  unfold try_except_oserror, bind, call_remove_p, unlink_failed, print, ret.
  cbn [res st evs]. destruct (snd (remove_p f (fs s))) as [e|]; cbn [outcome res st evs].
  - destruct (exn_oserror e); cbn [res st evs app]; repeat constructor.
  - repeat constructor.
Qed.

(** X4.  Neither deleter removes anything in silence: in the events of
    a call, every call of the tree remover on a directory comes right
    after the line RMTREE of that directory, every unlink of a file right
    after the line REMOVE of that file, and there is nothing but lines
    and these calls.  The directory deleter never unlinks, the file
    deleter never removes a tree. *)
Theorem removals_are_announced :
  forall (patterns : list string) (dry_run : bool) (workdir : string) (s : Store FS),
    Announced (evs (cleanup_dirs patterns dry_run workdir s)) /\
    Forall (fun e => is_unlink e = false) (evs (cleanup_dirs patterns dry_run workdir s)) /\
    Announced (evs (cleanup_files patterns dry_run workdir s)) /\
    Forall (fun e => is_rmtree e = false) (evs (cleanup_files patterns dry_run workdir s)).
Proof.
  intros patterns dry_run workdir s. split; [|split; [|split]].
  - unfold cleanup_dirs. apply Announced_evs_bind; [|intros; constructor].
    generalize 0. revert s.
    induction patterns as [|pat more IH]; intros s n; cbn [cleanup_dirs_loop];
      [constructor|].
    apply Announced_evs_bind; [constructor | intros cands _].
    apply Announced_evs_bind; [apply cleanup_dirs_each_announced | intros; apply IH].
  - unfold cleanup_dirs. apply Forall_evs_bind; [|intros; constructor].
    generalize 0. revert s.
    induction patterns as [|pat more IH]; intros s n; cbn [cleanup_dirs_loop];
      [constructor|].
    apply Forall_evs_bind; [constructor | intros cands _].
    apply Forall_evs_bind; [apply cleanup_dirs_each_never_unlinks | intros; apply IH].
  - unfold cleanup_files. apply Announced_evs_bind; [|intros; cbn; constructor].
    generalize (mkFileErrors None 0). revert s.
    induction patterns as [|pat more IH]; intros s acc; cbn [cleanup_files_loop];
      [constructor|].
    apply Announced_evs_bind; [constructor | intros cands _].
    apply Announced_evs_bind; [apply cleanup_files_each_announced | intros; apply IH].
  - unfold cleanup_files. apply Forall_evs_bind; [|intros; cbn; constructor].
    generalize (mkFileErrors None 0). revert s.
    induction patterns as [|pat more IH]; intros s acc; cbn [cleanup_files_loop];
      [constructor|].
    apply Forall_evs_bind; [constructor | intros cands _].
    apply Forall_evs_bind; [apply cleanup_files_each_never_rmtrees | intros; apply IH].
Qed.

(** *** A tree removal that fails *)






(** *** The count of errors *)

(** The locals agree: a message is kept exactly when the count is not zero. *)
Definition consistent (acc : FileErrors) : Prop :=
  truthy (error_message acc) = negb (Nat.eqb (error_count acc) 0).

(** Lines against unlinks: each failure adds one line. *)
Definition lines_match (acc acc' : FileErrors) (events : list Event) : Prop :=
  length (filter is_print events) + error_count acc =
  length (filter is_unlink events) + error_count acc'.

Lemma lines_match_app (a b c : FileErrors) (e1 e2 : list Event) :
  lines_match a b e1 -> lines_match b c e2 -> lines_match a c (e1 ++ e2).
Proof.
  unfold lines_match. rewrite !filter_app, !length_app. lia.
Qed.

Lemma try_unlink_counts (file_ : string) (acc acc' : FileErrors) (s : Store FS) :
  res (try_except_oserror (call_remove_p file_ ;; ret acc)
                          (fun e => unlink_failed e acc) s) = Ok acc' ->
  lines_match acc acc'
    (EvPrint ("REMOVE: " ++ file_) ::
     evs (try_except_oserror (call_remove_p file_ ;; ret acc)
                             (fun e => unlink_failed e acc) s)) /\
  (consistent acc -> consistent acc').
Proof.
  unfold try_except_oserror, bind, call_remove_p, unlink_failed, print, ret.
  cbn [res st evs]. destruct (snd (remove_p file_ (fs s))) as [e|]; cbn [outcome res st evs].
  - destruct (exn_oserror e); cbn [res st evs app]; [|discriminate].
    intros [= <-]. unfold lines_match, consistent. cbn. split; [lia|].
    intros Hc. replace (error_count acc + 1) with (S (error_count acc)) by lia.
    cbn. destruct (truthy (error_message acc)) eqn:Ht; [exact Ht|].
    apply message_truthy.
  - intros [= <-]. unfold lines_match. cbn. split; [lia | tauto].
Qed.

Lemma cleanup_files_each_counts (candidates : list string) :
  forall acc acc' s,
    res (cleanup_files_each candidates false acc s) = Ok acc' ->
    lines_match acc acc' (evs (cleanup_files_each candidates false acc s)) /\
    (consistent acc -> consistent acc').
Proof.
  induction candidates as [|f rest IH]; intros acc acc' s; cbn [cleanup_files_each].
  - intros [= <-]. unfold lines_match. cbn. split; [lia | tauto].
  - destruct (startswith (abspath f) python_basedir); [apply IH|].
    rewrite bind_print. cbn [res evs]. rewrite res_bind, evs_bind.
    destruct (res (try_except_oserror _ _ s)) as [acc1|e] eqn:Htry; [|discriminate].
    intros Hrest. destruct (try_unlink_counts f acc acc1 s Htry) as [H1 C1].
    destruct (IH _ _ _ Hrest) as [H2 C2]. split; [|tauto].
    change (EvPrint ("REMOVE: " ++ f) :: ?a ++ ?b)
      with ((EvPrint ("REMOVE: " ++ f) :: a) ++ b).
    eapply lines_match_app; eassumption.
Qed.

(** X6.  In a real run of the file deleter that gets to its end, the
    count of errors is the count of diagnostic lines: the lines printed
    are one per unlink, and one more per unlink that failed.  And the
    two locals stay in step: a message is kept exactly when the count is
    not zero. *)
Theorem error_count_counts_diagnostics :
  forall (patterns : list string) (workdir : string) (acc acc' : FileErrors) (s : Store FS),
    res (cleanup_files_loop patterns false workdir acc s) = Ok acc' ->
    length (filter is_print (evs (cleanup_files_loop patterns false workdir acc s))) +
    error_count acc =
    length (filter is_unlink (evs (cleanup_files_loop patterns false workdir acc s))) +
    error_count acc' /\
    (truthy (error_message acc) = negb (Nat.eqb (error_count acc) 0) ->
     truthy (error_message acc') = negb (Nat.eqb (error_count acc') 0)).
Proof.
  intros patterns workdir.
  induction patterns as [|pat more IH]; intros acc acc' s; cbn [cleanup_files_loop].
  - intros [= <-]. cbn. split; [lia | tauto].
  - rewrite res_bind, evs_bind. cbn [path_glob res st evs app].
    rewrite res_bind, evs_bind.
    destruct (res (cleanup_files_each _ false acc s)) as [acc1|e] eqn:Heach; [|discriminate].
    intros Hrest. destruct (cleanup_files_each_counts _ _ _ _ Heach) as [H1 C1].
    destruct (IH _ _ _ Hrest) as [H2 C2]. split; [|unfold consistent in *; tauto].
    apply (lines_match_app acc acc1 acc'); assumption.
Qed.

(** *** A contributor that fails *)

Lemma execute_cleanup_tasks_cons_ok (t : Task) (more : list Task) (dry_run : bool)
      (s : Store FS) :
  res (task_body t dry_run s) = Ok tt ->
  execute_cleanup_tasks (t :: more) dry_run s =
  let o := execute_cleanup_tasks more dry_run (st (task_body t dry_run s)) in
  mkOut (res o) (st o)
        (EvPrint ("CLEANUP TASK: " ++ task_name t) :: evs (task_body t dry_run s) ++ evs o).
Proof.
  intros H. cbn [execute_cleanup_tasks]. rewrite bind_print, bind_unfold, H. reflexivity.
Qed.

Lemma execute_cleanup_tasks_cons_raise (t : Task) (more : list Task) (dry_run : bool)
      (s : Store FS) (e : Exn) :
  res (task_body t dry_run s) = Raise e ->
  execute_cleanup_tasks (t :: more) dry_run s =
  mkOut (Raise e) (st (task_body t dry_run s))
        (EvPrint ("CLEANUP TASK: " ++ task_name t) :: evs (task_body t dry_run s)).
Proof.
  intros H. cbn [execute_cleanup_tasks]. rewrite bind_print, bind_unfold, H. reflexivity.
Qed.

Lemma execute_cleanup_tasks_raises (tasks : list Task) (dry_run : bool) :
  forall s e,
    res (execute_cleanup_tasks tasks dry_run s) = Raise e ->
    exists before t after,
      tasks = before ++ t :: after /\
      is_ok (res (execute_cleanup_tasks before dry_run s)) = true /\
      res (task_body t dry_run (st (execute_cleanup_tasks before dry_run s))) = Raise e /\
      execute_cleanup_tasks tasks dry_run s =
      mkOut (Raise e)
            (st (task_body t dry_run (st (execute_cleanup_tasks before dry_run s))))
            (evs (execute_cleanup_tasks before dry_run s) ++
             EvPrint ("CLEANUP TASK: " ++ task_name t) ::
             evs (task_body t dry_run (st (execute_cleanup_tasks before dry_run s)))).
Proof.
  induction tasks as [|t0 more IH]; intros s e Hraise; [discriminate|].
  destruct (res (task_body t0 dry_run s)) as [[]|e0] eqn:Hbody.
  - rewrite (execute_cleanup_tasks_cons_ok _ _ _ _ Hbody) in Hraise.
    cbv zeta in Hraise. cbn [res] in Hraise.
    destruct (IH _ _ Hraise) as [before [t [after [-> [Hok [Ht Heq]]]]]].
    exists (t0 :: before), t, after.
    rewrite (execute_cleanup_tasks_cons_ok t0 before _ _ Hbody). cbv zeta. cbn [res st evs].
    split; [reflexivity|]. split; [exact Hok|]. split; [exact Ht|].
    change ((t0 :: before) ++ t :: after) with (t0 :: (before ++ t :: after)).
    rewrite (execute_cleanup_tasks_cons_ok _ _ _ _ Hbody). cbv zeta.
    rewrite Heq. cbn [res st evs app]. now rewrite app_assoc.
  - rewrite (execute_cleanup_tasks_cons_raise _ _ _ _ _ Hbody) in Hraise.
    cbn [res] in Hraise. injection Hraise as <-.
    exists [], t0, more. cbn [execute_cleanup_tasks app ret res st evs].
    split; [reflexivity|]. split; [reflexivity|]. split; [exact Hbody|].
    now apply execute_cleanup_tasks_cons_raise.
Qed.

(** X7.  A contributor that raises ends the run of the registry: the
    contributors registered before it have run and returned, it has been
    announced and has raised, and those registered after it are neither
    announced nor run.  In [clean] the two deleters of [clean] itself
    are then not called at all. *)
Theorem failed_contributor_ends_the_run :
  (forall (tasks : list Task) (dry_run : bool) (s : Store FS) (e : Exn),
      res (execute_cleanup_tasks tasks dry_run s) = Raise e ->
      exists before t after,
        tasks = before ++ t :: after /\
        is_ok (res (execute_cleanup_tasks before dry_run s)) = true /\
        res (task_body t dry_run (st (execute_cleanup_tasks before dry_run s))) = Raise e /\
        execute_cleanup_tasks tasks dry_run s =
        mkOut (Raise e)
              (st (task_body t dry_run (st (execute_cleanup_tasks before dry_run s))))
              (evs (execute_cleanup_tasks before dry_run s) ++
               EvPrint ("CLEANUP TASK: " ++ task_name t) ::
               evs (task_body t dry_run (st (execute_cleanup_tasks before dry_run s))))) /\
  (forall (dry_run : bool) (s : Store FS) (e : Exn),
      let s1 := mkStore (fs s) (effective_config (cfg s)) in
      res (execute_cleanup_tasks cleanup_tasks dry_run s1) = Raise e ->
      clean dry_run s =
      mkOut (Raise e) (st (execute_cleanup_tasks cleanup_tasks dry_run s1))
            (evs (execute_cleanup_tasks cleanup_tasks dry_run s1))).
Proof.
  split; [intros; now apply execute_cleanup_tasks_raises|].
  intros dry_run s e s1 Hraise. rewrite clean_merges_first. fold s1.
  now rewrite bind_unfold, Hraise.
Qed.

(** *** The steps of [clean_python] *)

(** A real run of [clean_python] is the directory deleter on its four
    patterns, then the external command, then the file deleter on its
    three patterns, each on the store the one before left. *)
Lemma clean_python_steps :
  forall s : Store FS,
    let o1 := cleanup_dirs ["build"; "dist"; "*.egg-info"; "**/__pycache__"] false "." s in
    let r := run_cmd "py.cleanup" (fs (st o1)) in
    let s2 := mkStore (fst (fst r)) (cfg (st o1)) in
    let ran := EvRun "py.cleanup" (snd (fst r)) in
    let o3 := cleanup_files ["**/*.pyc"; "**/*.pyo"; "**/*$py.class"] false "." s2 in
    clean_python false s =
    match res o1, snd r with
    | Raise e, _ => mkOut (Raise e) (st o1) (evs o1)
    | Ok _, Some e => mkOut (Raise e) s2 (evs o1 ++ [ran])
    | Ok _, None => mkOut (res o3) (st o3) (evs o1 ++ ran :: evs o3)
    end.
Proof.
  intros s. cbv zeta. unfold clean_python. cbn [negb]. rewrite bind_unfold.
  destruct (res (cleanup_dirs _ false "." s)) as [[]|e1].
  2: reflexivity.
  cbv zeta. rewrite bind_unfold. cbn [ctx_run res st evs].
  match goal with
  | |- context [outcome (snd ?r)] => destruct (snd r)
  end; reflexivity.
Qed.

(** *** The gate through the orchestrators *)

Lemma execute_cleanup_tasks_gated (tasks : list Task) (dry_run : bool) :
  (forall t, In t tasks -> forall s, Forall gated (evs (task_body t dry_run s))) ->
  forall s, Forall gated (evs (execute_cleanup_tasks tasks dry_run s)).
Proof.
  induction tasks as [|t more IH]; intros Hall s; cbn [execute_cleanup_tasks].
  - constructor.
  - rewrite bind_print. cbn [evs]. constructor; [apply gated_print|].
    apply Forall_evs_bind; [apply Hall; now left|].
    intros _ _. apply IH. intros t' Hin. apply Hall. now right.
Qed.

Lemma clean_python_gated (dry_run : bool) (s : Store FS) :
  Forall gated (evs (clean_python dry_run s)).
Proof.
  unfold clean_python. apply Forall_evs_bind; [apply cleanup_dirs_gated | intros _ _].
  apply Forall_evs_bind; [|intros; apply cleanup_files_gated].
  destruct dry_run; cbn; repeat constructor.
Qed.

Lemma clean_gated (dry_run : bool) (s : Store FS) :
  (forall t, In t cleanup_tasks -> forall s', Forall gated (evs (task_body t dry_run s'))) ->
  Forall gated (evs (clean dry_run s)).
Proof.
  intros Hall. rewrite clean_merges_first.
  apply Forall_evs_bind; [now apply execute_cleanup_tasks_gated | intros _ _].
  apply Forall_evs_bind; [constructor | intros c1 _].
  apply Forall_evs_bind; [apply cleanup_dirs_gated | intros _ _].
  apply Forall_evs_bind; [constructor | intros c2 _].
  apply cleanup_files_gated.
Qed.

(** X9.  The safety gate holds through the tasks.  [clean_python]
    never calls the tree remover on a path the interpreter's path starts
    with, and never calls a deleter on a path that starts with the
    environment base; and so do [clean] and [clean_all], whatever the
    configuration, when the registered contributors do. *)
Theorem tasks_are_gated :
  forall (dry_run : bool) (s : Store FS),
    Forall gated (evs (clean_python dry_run s)) /\
    ((forall t, In t (cleanup_tasks ++ cleanup_all_tasks) ->
                forall s', Forall gated (evs (task_body t dry_run s'))) ->
     Forall gated (evs (clean dry_run s)) /\
     Forall gated (evs (clean_all dry_run s))).
Proof.
  intros dry_run s. split; [apply clean_python_gated|]. intros Hall.
  assert (H1 : forall t, In t cleanup_tasks ->
                         forall s', Forall gated (evs (task_body t dry_run s')))
    by (intros t Hin; apply Hall, in_or_app; now left).
  split; [now apply clean_gated|].
  unfold clean_all.
  apply Forall_evs_bind; [constructor | intros c _].
  apply Forall_evs_bind; [apply cleanup_dirs_gated | intros _ _].
  apply Forall_evs_bind; [constructor | intros c' _].
  apply Forall_evs_bind; [apply cleanup_files_gated | intros _ _].
  apply Forall_evs_bind; [|intros _ _; now apply clean_gated].
  apply execute_cleanup_tasks_gated. intros t Hin. apply Hall, in_or_app. now right.
Qed.

(** *** The configuration after [clean] *)

Lemma clean_leaves_effective_config (dry_run : bool) (s : Store FS) :
  (forall t, In t cleanup_tasks -> keeps_config (task_body t dry_run)) ->
  cfg (st (clean dry_run s)) = effective_config (cfg s).
Proof.
  intros Hkeep. rewrite clean_merges_first.
  assert (H : keeps_config
                (execute_cleanup_tasks cleanup_tasks dry_run ;;
                 c1 <- get_config ;;
                 cleanup_dirs (directories (cfg_clean c1)) dry_run "." ;;
                 c2 <- get_config ;;
                 cleanup_files (files (cfg_clean c2)) dry_run ".")).
  { apply keeps_config_bind; [now apply execute_cleanup_tasks_keeps_config | intros _].
    apply keeps_config_bind; [now intros s' | intros c1].
    apply keeps_config_bind; [apply cleanup_dirs_keeps_config | intros _].
    apply keeps_config_bind; [now intros s' | intros c2].
    apply cleanup_files_keeps_config. }
  now rewrite H.
Qed.




(** *** The helpers of the configuration *)

(** The helpers append to the base lists and touch nothing else: two
    calls add up, the one for directories and the one for files do not
    interfere, and the patterns they add come in the effective lists
    after what the base lists held and before the extras. *)
Lemma config_helpers_append :
  forall (a b : list string) (c : Config),
    config_add_cleanup_dirs b (config_add_cleanup_dirs a c) =
    config_add_cleanup_dirs (a ++ b) c /\
    config_add_cleanup_files b (config_add_cleanup_files a c) =
    config_add_cleanup_files (a ++ b) c /\
    config_add_cleanup_dirs a (config_add_cleanup_files b c) =
    config_add_cleanup_files b (config_add_cleanup_dirs a c) /\
    directories (cfg_clean (effective_config
                              (config_add_cleanup_files b (config_add_cleanup_dirs a c)))) =
    directories (cfg_clean c) ++ a ++ or_empty (extra_directories (cfg_clean c)) /\
    files (cfg_clean (effective_config
                        (config_add_cleanup_files b (config_add_cleanup_dirs a c)))) =
    files (cfg_clean c) ++ b ++ or_empty (extra_files (cfg_clean c)).
Proof.
  intros a b c.
  unfold config_add_cleanup_dirs, config_add_cleanup_files, extend_directories,
    extend_files, effective_config.
  cbn [cfg_clean cfg_clean_all directories files extra_directories extra_files].
  rewrite <- !app_assoc. repeat split; reflexivity.
Qed.

(** *** What a dry run prints *)

Lemma cleanup_dirs_each_app (a b : list string) (dry_run : bool) :
  forall n s,
    cleanup_dirs_each (a ++ b) dry_run n s =
    (n1 <- cleanup_dirs_each a dry_run n ;; cleanup_dirs_each b dry_run n1) s.
Proof.
  induction a as [|d a IH]; intros n s; cbn [app cleanup_dirs_each].
  - now rewrite bind_ret_l.
  - destruct (startswith sys_executable (abspath d)).
    { rewrite bind_assoc, !bind_print. cbv beta. now rewrite IH. }
    destruct (startswith (abspath d) python_basedir).
    { rewrite bind_assoc. destruct (Nat.leb n 4).
      - rewrite !bind_print. cbv beta. now rewrite IH.
      - rewrite !bind_ret_l. apply IH. }
    destruct dry_run.
    { rewrite bind_assoc, !bind_print. cbv beta. now rewrite IH. }
    rewrite bind_assoc, !bind_print. cbv beta.
    assert (H : (call_rmtree_p d ;; cleanup_dirs_each (a ++ b) false n) s =
                (n1 <- (call_rmtree_p d ;; cleanup_dirs_each a false n) ;;
                 cleanup_dirs_each b false n1) s).
    { rewrite bind_assoc, !(bind_unfold (call_rmtree_p d)).
      destruct (res (call_rmtree_p d s)); [|reflexivity]. cbv zeta. now rewrite IH. }
    now rewrite H.
Qed.

Lemma cleanup_dirs_loop_dry (patterns : list string) (workdir : string) :
  forall n s,
    cleanup_dirs_loop patterns true workdir n s =
    cleanup_dirs_each (flat_map (glob (fs s) (glob_dir workdir)) patterns) true n s.
Proof.
  induction patterns as [|pat more IH]; intros n s; cbn [cleanup_dirs_loop flat_map].
  - reflexivity.
  - rewrite cleanup_dirs_each_app, bind_unfold. cbn [path_glob res st evs app].
    fold (glob_dir workdir). cbv zeta.
    rewrite !(bind_unfold (cleanup_dirs_each _ true n)).
    destruct (cleanup_dirs_each_harmless (glob (fs s) (glob_dir workdir) pat) n s)
      as [Hok Hst].
    destruct (res (cleanup_dirs_each _ true n s)) as [n1|e]; [|discriminate Hok].
    cbv zeta. rewrite Hst, IH. reflexivity.
Qed.

Lemma cleanup_files_each_dry_closed (candidates : list string) :
  forall acc s,
    cleanup_files_each candidates true acc s =
    mkOut (Ok acc) s
          (map (fun f => EvPrint ("REMOVE: " ++ f ++ " (dry-run)"))
               (filter (fun f => negb (startswith (abspath f) python_basedir)) candidates)).
Proof.
  induction candidates as [|f rest IH]; intros acc s; cbn [cleanup_files_each filter].
  - reflexivity.
  - destruct (startswith (abspath f) python_basedir); cbn [negb]; [apply IH|].
    rewrite bind_print, IH. reflexivity.
Qed.

Lemma cleanup_files_loop_dry_closed (patterns : list string) (workdir : string) :
  forall acc s,
    cleanup_files_loop patterns true workdir acc s =
    mkOut (Ok acc) s
          (map (fun f => EvPrint ("REMOVE: " ++ f ++ " (dry-run)"))
               (filter (fun f => negb (startswith (abspath f) python_basedir))
                       (flat_map (glob (fs s) (glob_dir workdir)) patterns))).
Proof.
  induction patterns as [|pat more IH]; intros acc s; cbn [cleanup_files_loop flat_map].
  - reflexivity.
  - rewrite bind_unfold. cbn [path_glob res st evs app]. fold (glob_dir workdir).
    cbv zeta. rewrite bind_unfold, cleanup_files_each_dry_closed. cbn [res st evs].
    rewrite IH. cbn [res st evs]. now rewrite filter_app, map_app.
Qed.


(** *** Patterns that match nothing *)




(** *** The working directory *)




(** *** What the deleters remove, on a lawful filesystem *)

Section Sweeping.

Context {laws : Lawful sys}.

(** A call of a deleter is on a path that one of the patterns yields on
    the tree [t]. *)
Definition touches_match (patterns : list string) (workdir : string) (t : FS)
           (e : Event) : Prop :=
  match e with
  | EvRmtree p | EvUnlink p =>
      exists pat, In pat patterns /\ In p (glob t (glob_dir workdir) pat)
  | _ => True
  end.

(** A call of a deleter is on one of the candidates. *)
Definition touches_candidate (candidates : list string) (e : Event) : Prop :=
  match e with
  | EvRmtree p | EvUnlink p => In p candidates
  | _ => True
  end.

Lemma touches_candidate_cons (d : string) (rest : list string) (events : list Event) :
  Forall (touches_candidate rest) events ->
  Forall (touches_candidate (d :: rest)) events.
Proof.
  apply Forall_impl. intros [] H; cbn in *; auto.
Qed.

Lemma cleanup_dirs_each_touches (candidates : list string) (dry_run : bool) :
  forall n s, Forall (touches_candidate candidates)
                     (evs (cleanup_dirs_each candidates dry_run n s)).
Proof.
  induction candidates as [|d rest IH]; intros n s; cbn [cleanup_dirs_each].
  - constructor.
  - destruct (startswith sys_executable (abspath d)).
    { rewrite bind_print. cbn [evs]. constructor; [exact I|].
      apply touches_candidate_cons, IH. }
    destruct (startswith (abspath d) python_basedir).
    { apply Forall_evs_bind; [|intros; apply touches_candidate_cons, IH].
      destruct (Nat.leb n 4); cbn; repeat constructor. }
    destruct dry_run; rewrite bind_print; cbn [evs]; (constructor; [exact I|]);
      [apply touches_candidate_cons, IH|].
    apply Forall_evs_bind; [|intros; apply touches_candidate_cons, IH].
    cbn. constructor; [now left | constructor].
Qed.

Lemma cleanup_files_each_touches (candidates : list string) (dry_run : bool) :
  forall acc s, Forall (touches_candidate candidates)
                       (evs (cleanup_files_each candidates dry_run acc s)).
Proof.
  induction candidates as [|f rest IH]; intros acc s; cbn [cleanup_files_each].
  - constructor.
  - destruct (startswith (abspath f) python_basedir);
      [apply touches_candidate_cons, IH|].
    destruct dry_run; rewrite bind_print; cbn [evs]; (constructor; [exact I|]);
      [apply touches_candidate_cons, IH|].
    apply Forall_evs_bind; [|intros; apply touches_candidate_cons, IH].
    unfold try_except_oserror, bind, call_remove_p, unlink_failed, print, ret.
    cbn [res st evs]. destruct (snd (remove_p f (fs s))) as [e|]; cbn [outcome res st evs].
    + destruct (exn_oserror e); cbn [res st evs app]; repeat constructor.
    + repeat constructor.
Qed.

Lemma touches_match_of_candidates (patterns : list string) (workdir : string) (t t0 : FS)
      (pat : string) (events : list Event) :
  In pat patterns -> fs_le t t0 ->
  Forall (touches_candidate (glob t (glob_dir workdir) pat)) events ->
  Forall (touches_match patterns workdir t0) events.
Proof.
  intros Hin Hle. apply Forall_impl. intros [] H; cbn in *; auto;
    exists pat; (split; [exact Hin|]); eapply glob_mono; eassumption.
Qed.

Lemma touches_match_more (pat : string) (more : list string) (workdir : string) (t0 : FS)
      (events : list Event) :
  Forall (touches_match more workdir t0) events ->
  Forall (touches_match (pat :: more) workdir t0) events.
Proof.
  apply Forall_impl. intros [] H; cbn in *; auto;
    destruct H as [pat' [Hin Hp]]; exists pat'; (split; [now right | exact Hp]).
Qed.

(** The store after the inner loop of a deleter, dry run or not, is no
    larger than before. *)
Lemma cleanup_dirs_each_shrinks (candidates : list string) (dry_run : bool)
      (n : nat) (s : Store FS) :
  is_ok (res (cleanup_dirs_each candidates dry_run n s)) = true ->
  fs_le (fs (st (cleanup_dirs_each candidates dry_run n s))) (fs s).
Proof.
  destruct dry_run.
  - intros _. destruct (cleanup_dirs_each_harmless candidates n s) as [_ ->].
    apply fs_le_refl.
  - intros H. now apply cleanup_dirs_each_sweeps.
Qed.

Lemma cleanup_files_each_shrinks (candidates : list string) (dry_run : bool)
      (acc : FileErrors) (s : Store FS) :
  is_ok (res (cleanup_files_each candidates dry_run acc s)) = true ->
  fs_le (fs (st (cleanup_files_each candidates dry_run acc s))) (fs s).
Proof.
  destruct dry_run.
  - intros _. destruct (cleanup_files_each_harmless candidates acc s) as [_ ->].
    apply fs_le_refl.
  - intros H. now apply cleanup_files_each_sweeps.
Qed.

Lemma cleanup_dirs_loop_touches (patterns : list string) (dry_run : bool)
      (workdir : string) (t0 : FS) :
  forall n s,
    fs_le (fs s) t0 ->
    Forall (touches_match patterns workdir t0)
           (evs (cleanup_dirs_loop patterns dry_run workdir n s)).
Proof.
  induction patterns as [|pat more IH]; intros n s Hle; cbn [cleanup_dirs_loop].
  - constructor.
  - rewrite evs_bind. cbn [path_glob res st evs app]. fold (glob_dir workdir).
    apply Forall_evs_bind.
    + eapply touches_match_of_candidates; [now left | exact Hle|].
      apply cleanup_dirs_each_touches.
    + intros n1 Hok. apply touches_match_more, IH.
      eapply fs_le_trans; [|exact Hle].
      apply cleanup_dirs_each_shrinks. now rewrite Hok.
Qed.

Lemma cleanup_files_loop_touches (patterns : list string) (dry_run : bool)
      (workdir : string) (t0 : FS) :
  forall acc s,
    fs_le (fs s) t0 ->
    Forall (touches_match patterns workdir t0)
           (evs (cleanup_files_loop patterns dry_run workdir acc s)).
Proof.
  induction patterns as [|pat more IH]; intros acc s Hle; cbn [cleanup_files_loop].
  - constructor.
  - rewrite evs_bind. cbn [path_glob res st evs app]. fold (glob_dir workdir).
    apply Forall_evs_bind.
    + eapply touches_match_of_candidates; [now left | exact Hle|].
      apply cleanup_files_each_touches.
    + intros acc1 Hok. apply touches_match_more, IH.
      eapply fs_le_trans; [|exact Hle].
      apply cleanup_files_each_shrinks. now rewrite Hok.
Qed.

(** X14.  On a lawful filesystem a deleter is only ever called on a
    path that one of its patterns yields on the filesystem as it stood
    when the call began: what matched no pattern then is never handed to
    the tree remover or unlinked. *)
Theorem deleters_touch_only_matches :
  forall (patterns : list string) (dry_run : bool) (workdir : string) (s : Store FS),
    Forall (touches_match patterns workdir (fs s))
           (evs (cleanup_dirs patterns dry_run workdir s)) /\
    Forall (touches_match patterns workdir (fs s))
           (evs (cleanup_files patterns dry_run workdir s)).
Proof.
  intros patterns dry_run workdir s. split.
  - unfold cleanup_dirs. apply Forall_evs_bind; [|intros; constructor].
    apply cleanup_dirs_loop_touches, fs_le_refl.
  - unfold cleanup_files. apply Forall_evs_bind; [|intros; cbn; constructor].
    apply cleanup_files_loop_touches, fs_le_refl.
Qed.

(** X15.  On a lawful filesystem a real run of a deleter that returns
    has done its work: of the paths its patterns still yield, every one
    is behind the safety gate, or, for the file deleter, is a path whose
    unlink failed and is without effect. *)
Theorem deleters_remove_all_matches :
  forall (patterns : list string) (workdir : string) (s : Store FS),
    (is_ok (res (cleanup_dirs patterns false workdir s)) = true ->
     forall pat p,
       In pat patterns ->
       In p (glob (fs (st (cleanup_dirs patterns false workdir s)))
                  (if nonempty_str workdir then workdir else cwd) pat) ->
       startswith sys_executable (abspath p) = true \/
       startswith (abspath p) python_basedir = true) /\
    (is_ok (res (cleanup_files patterns false workdir s)) = true ->
     forall pat p,
       In pat patterns ->
       In p (glob (fs (st (cleanup_files patterns false workdir s)))
                  (if nonempty_str workdir then workdir else cwd) pat) ->
       startswith (abspath p) python_basedir = true \/
       forall t', fs_le t' (fs (st (cleanup_files patterns false workdir s))) ->
                  fst (remove_p p t') = t').
Proof.
  intros patterns workdir s. split.
  - intros Hok pat p Hpat Hp.
    destruct (cleanup_dirs_sweeps patterns workdir s Hok) as [_ Hswept].
    apply orb_true_iff. exact (Hswept pat Hpat p Hp).
  - intros Hok pat p Hpat Hp.
    destruct (cleanup_files_sweeps patterns workdir s Hok) as [_ Hswept].
    exact (Hswept pat Hpat p Hp).
Qed.

Lemma cleanup_dirs_each_dry_line (candidates : list string) :
  forall n s d,
    In d candidates ->
    startswith sys_executable (abspath d) = false ->
    startswith (abspath d) python_basedir = false ->
    In (EvPrint ("RMTREE: " ++ d ++ " (dry-run)"))
       (evs (cleanup_dirs_each candidates true n s)).
Proof.
  induction candidates as [|c rest IH]; intros n s d Hin Hexe Hbase; [contradiction|].
  cbn [cleanup_dirs_each]. destruct Hin as [->|Hin].
  - rewrite Hexe, Hbase, bind_print. now left.
  - destruct (startswith sys_executable (abspath c)).
    { rewrite bind_print. right. now apply IH. }
    destruct (startswith (abspath c) python_basedir).
    { destruct (Nat.leb n 4); [rewrite bind_print; right | rewrite bind_ret_l];
        now apply IH. }
    rewrite bind_print. right. now apply IH.
Qed.

Lemma cleanup_dirs_dry_evs (patterns : list string) (workdir : string) (s : Store FS) :
  evs (cleanup_dirs patterns true workdir s) =
  evs (cleanup_dirs_each (flat_map (glob (fs s) (glob_dir workdir)) patterns) true 0 s).
Proof.
  unfold cleanup_dirs. rewrite evs_bind, cleanup_dirs_loop_dry.
  destruct (res (cleanup_dirs_each _ true 0 s)); cbn [ret evs]; apply app_nil_r.
Qed.

Lemma cleanup_files_dry_evs (patterns : list string) (workdir : string) (s : Store FS) :
  evs (cleanup_files patterns true workdir s) =
  map (fun f => EvPrint ("REMOVE: " ++ f ++ " (dry-run)"))
      (filter (fun f => negb (startswith (abspath f) python_basedir))
              (flat_map (glob (fs s) (glob_dir workdir)) patterns)).
Proof.
  unfold cleanup_files. rewrite evs_bind, cleanup_files_loop_dry_closed.
  cbn [res st evs error_message truthy andb ret]. apply app_nil_r.
Qed.

(** X16.  On a lawful filesystem a dry run is a preview that leaves
    nothing out: every directory a real run of the directory deleter
    hands to the tree remover, and every file a real run of the file
    deleter unlinks, has its line in the dry run made from the same
    store. *)
Theorem dry_run_previews_the_real_run :
  forall (patterns : list string) (workdir : string) (s : Store FS),
    (forall d, In (EvRmtree d) (evs (cleanup_dirs patterns false workdir s)) ->
               In (EvPrint ("RMTREE: " ++ d ++ " (dry-run)"))
                  (evs (cleanup_dirs patterns true workdir s))) /\
    (forall f, In (EvUnlink f) (evs (cleanup_files patterns false workdir s)) ->
               In (EvPrint ("REMOVE: " ++ f ++ " (dry-run)"))
                  (evs (cleanup_files patterns true workdir s))).
Proof.
  intros patterns workdir s. split.
  - intros d Hin.
    pose proof (cleanup_dirs_gated patterns false workdir s) as Hgate.
    rewrite Forall_forall in Hgate. destruct (Hgate _ Hin) as [Hexe Hbase].
    cbn in Hexe, Hbase.
    assert (Htouch : Forall (touches_match patterns workdir (fs s))
                            (evs (cleanup_dirs patterns false workdir s))).
    { unfold cleanup_dirs. apply Forall_evs_bind; [|intros; constructor].
      apply cleanup_dirs_loop_touches, fs_le_refl. }
    rewrite Forall_forall in Htouch. destruct (Htouch _ Hin) as [pat [Hpat Hd]].
    rewrite cleanup_dirs_dry_evs. apply cleanup_dirs_each_dry_line; try assumption.
    apply in_flat_map. now exists pat.
  - intros f Hin.
    pose proof (cleanup_files_gated patterns false workdir s) as Hgate.
    rewrite Forall_forall in Hgate. destruct (Hgate _ Hin) as [_ Hbase].
    cbn in Hbase.
    assert (Htouch : Forall (touches_match patterns workdir (fs s))
                            (evs (cleanup_files patterns false workdir s))).
    { unfold cleanup_files. apply Forall_evs_bind; [|intros; cbn; constructor].
      apply cleanup_files_loop_touches, fs_le_refl. }
    rewrite Forall_forall in Htouch. destruct (Htouch _ Hin) as [pat [Hpat Hf]].
    rewrite cleanup_files_dry_evs.
    apply (in_map (fun f => EvPrint ("REMOVE: " ++ f ++ " (dry-run)"))).
    apply filter_In. split; [|now rewrite Hbase].
    apply in_flat_map. now exists pat.
Qed.

(** X17.  On a lawful filesystem each deleter, run again on the store a
    real run of it left when it returned, leaves the filesystem as that
    run left it. *)
Theorem deleters_are_idempotent :
  forall (patterns : list string) (workdir : string) (s : Store FS),
    (is_ok (res (cleanup_dirs patterns false workdir s)) = true ->
     fs (st (cleanup_dirs patterns false workdir
                          (st (cleanup_dirs patterns false workdir s)))) =
     fs (st (cleanup_dirs patterns false workdir s))) /\
    (is_ok (res (cleanup_files patterns false workdir s)) = true ->
     fs (st (cleanup_files patterns false workdir
                           (st (cleanup_files patterns false workdir s)))) =
     fs (st (cleanup_files patterns false workdir s))).
Proof.
  intros patterns workdir s. split; intros Hok.
  - destruct (cleanup_dirs_settles patterns workdir) as [_ Hstable].
    apply (Hstable s Hok). apply fs_le_refl.
  - destruct (cleanup_files_settles patterns workdir) as [_ Hstable].
    apply (Hstable s Hok). apply fs_le_refl.
Qed.

(** *** What [clean_python] does for the bytecode files *)

Lemma cleanup_dirs_never_unlinks (patterns : list string) (dry_run : bool)
      (workdir : string) (s : Store FS) :
  Forall (fun e => is_unlink e = false) (evs (cleanup_dirs patterns dry_run workdir s)).
Proof.
  unfold cleanup_dirs. apply Forall_evs_bind; [|intros; constructor].
  generalize 0. revert s.
  induction patterns as [|pat more IH]; intros s n; cbn [cleanup_dirs_loop];
    [constructor|].
  apply Forall_evs_bind; [constructor | intros cands _].
  apply Forall_evs_bind; [apply cleanup_dirs_each_never_unlinks | intros; apply IH].
Qed.

(** X8.  The bytecode files are swept last, after the external command,
    so that whatever the command does to the tree a real run of
    [clean_python] that returns leaves of the files matching its three
    patterns only those that start with the environment base or cannot
    be unlinked.  The sweep hangs on the steps before it: when the
    command fails its exception ends [clean_python] and no file has been
    unlinked, and when the directory deleter raises [clean_python] ends
    as the directory deleter did, the command not run. *)
Theorem clean_python_sweeps_bytecode :
  forall s : Store FS,
    let o1 := cleanup_dirs ["build"; "dist"; "*.egg-info"; "**/__pycache__"] false "." s in
    (is_ok (res (clean_python false s)) = true ->
     forall pat p,
       In pat ["**/*.pyc"; "**/*.pyo"; "**/*$py.class"] ->
       In p (glob (fs (st (clean_python false s))) "." pat) ->
       startswith (abspath p) python_basedir = true \/
       forall t', fs_le t' (fs (st (clean_python false s))) -> fst (remove_p p t') = t') /\
    (forall e : Exn,
        is_ok (res o1) = true ->
        snd (run_cmd "py.cleanup" (fs (st o1))) = Some e ->
        res (clean_python false s) = Raise e /\
        Forall (fun ev => is_unlink ev = false) (evs (clean_python false s))) /\
    (forall e : Exn, res o1 = Raise e -> clean_python false s = o1).
Proof.
  intros s o1. pose proof (clean_python_steps s) as Hsteps. cbv zeta in Hsteps.
  fold o1 in Hsteps. split; [|split].
  - rewrite Hsteps. destruct (res o1) as [[]|e1]; [|discriminate].
    destruct (snd (run_cmd "py.cleanup" (fs (st o1)))) as [e2|]; [discriminate|].
    cbn [res st]. intros Hok pat p Hpat Hp.
    destruct (cleanup_files_sweeps _ _ _ Hok) as [_ Hswept].
    exact (Hswept pat Hpat p Hp).
  - intros e Hok Hcmd. rewrite Hsteps, Hcmd.
    destruct (res o1) as [[]|e1]; [|discriminate]. split; [reflexivity|].
    cbn [evs]. apply Forall_app. split; [apply cleanup_dirs_never_unlinks|].
    repeat constructor.
  - intros e Hraise. rewrite Hsteps, Hraise. rewrite <- Hraise. symmetry. apply Out_eta.
Qed.

Lemma clean_sweeps (s : Store FS) :
  (forall t, In t cleanup_tasks ->
             settles (task_body t false) /\ keeps_config (task_body t false)) ->
  is_ok (res (clean false s)) = true ->
  (forall pat, In pat (directories (cfg_clean (effective_config (cfg s)))) ->
               dirs_swept (glob_dir ".") pat (fs (st (clean false s)))) /\
  (forall pat, In pat (files (cfg_clean (effective_config (cfg s)))) ->
               files_swept (glob_dir ".") pat (fs (st (clean false s)))).
Proof.
  intros Htasks. rewrite clean_merges_first. fold clean_steps. intros Hok.
  destruct (clean_steps_sweep Htasks _ Hok) as [_ [_ [_ [Hd Hf]]]]. now split.
Qed.

(** X18.  On a lawful filesystem, with contributors that settle and
    leave the configuration alone, a real run of [clean] that returns
    has swept its lists: of the paths that a pattern of [directories] or
    of [extra_directories] still yields every one is behind the safety
    gate, and of the paths that a pattern of [files] or of [extra_files]
    still yields every one starts with the environment base or is a path
    whose unlink failed and is without effect. *)
Theorem clean_removes_all_matches :
  forall s : Store FS,
    (forall t, In t cleanup_tasks ->
               settles (task_body t false) /\ keeps_config (task_body t false)) ->
    is_ok (res (clean false s)) = true ->
    (forall pat p,
        In pat (directories (cfg_clean (cfg s)) ++
                or_empty (extra_directories (cfg_clean (cfg s)))) ->
        In p (glob (fs (st (clean false s))) "." pat) ->
        startswith sys_executable (abspath p) = true \/
        startswith (abspath p) python_basedir = true) /\
    (forall pat p,
        In pat (files (cfg_clean (cfg s)) ++
                or_empty (extra_files (cfg_clean (cfg s)))) ->
        In p (glob (fs (st (clean false s))) "." pat) ->
        startswith (abspath p) python_basedir = true \/
        forall t', fs_le t' (fs (st (clean false s))) -> fst (remove_p p t') = t').
Proof.
  intros s Htasks Hok. destruct (clean_sweeps s Htasks Hok) as [Hd Hf]. split.
  - intros pat p Hpat Hp. apply orb_true_iff. exact (Hd pat Hpat p Hp).
  - intros pat p Hpat Hp. exact (Hf pat Hpat p Hp).
Qed.

(** *** [clean_all] *)

Lemma Store_ext (s s' : Store FS) : fs s = fs s' -> cfg s = cfg s' -> s = s'.
Proof. destruct s, s'; cbn; congruence. Qed.

Lemma clean_shrinks (s : Store FS) :
  (forall t, In t cleanup_tasks ->
             settles (task_body t false) /\ keeps_config (task_body t false)) ->
  is_ok (res (clean false s)) = true ->
  fs_le (fs (st (clean false s))) (fs s).
Proof.
  intros Htasks. rewrite clean_merges_first. fold clean_steps. intros Hok.
  destruct (clean_steps_sweep Htasks _ Hok) as [Hokt [_ [Hle _]]].
  eapply fs_le_trans; [exact Hle|].
  destruct (tasks_settled Htasks) as [Hmono _]. exact (Hmono _ Hokt).
Qed.

(** A run of [clean_all] that returns went through its four steps, each
    of which returned. *)
Lemma clean_all_stages (s : Store FS) :
  let o1 := cleanup_dirs (or_empty (all_directories (cfg_clean_all (cfg s)))) false "." s in
  let o2 := cleanup_files (or_empty (all_files (cfg_clean_all (cfg s)))) false "."
                          (st o1) in
  let o3 := execute_cleanup_tasks cleanup_all_tasks false (st o2) in
  is_ok (res (clean_all false s)) = true ->
  is_ok (res o1) = true /\ is_ok (res o2) = true /\ is_ok (res o3) = true /\
  is_ok (res (clean false (st o3))) = true /\
  st (clean_all false s) = st (clean false (st o3)).
Proof.
  intros o1 o2 o3. unfold clean_all. rewrite bind_get_config, res_bind, st_bind.
  fold o1. pose proof (cleanup_dirs_keeps_config
                         (or_empty (all_directories (cfg_clean_all (cfg s)))) false "." s)
    as Hcfg1. fold o1 in Hcfg1.
  destruct (res o1) as [[]|e]; [|discriminate].
  rewrite bind_get_config, res_bind, st_bind. rewrite Hcfg1. fold o2.
  destruct (res o2) as [[]|e]; [|discriminate].
  rewrite res_bind, st_bind. fold o3.
  destruct (res o3) as [[]|e]; [|discriminate].
  intros Hok. repeat split; try reflexivity. exact Hok.
Qed.

(** On a store where the two lists of [clean_all] are swept and the
    contributors and [clean] find nothing to do, [clean_all] leaves the
    filesystem as it is. *)
Lemma clean_all_idle (s' : Store FS) :
  keeps_config (execute_cleanup_tasks cleanup_all_tasks false) ->
  (forall pat, In pat (or_empty (all_directories (cfg_clean_all (cfg s')))) ->
               dirs_swept (glob_dir ".") pat (fs s')) ->
  (forall pat, In pat (or_empty (all_files (cfg_clean_all (cfg s')))) ->
               files_swept (glob_dir ".") pat (fs s')) ->
  fs (st (execute_cleanup_tasks cleanup_all_tasks false s')) = fs s' ->
  fs (st (clean false s')) = fs s' ->
  fs (st (clean_all false s')) = fs s'.
Proof.
  intros Hkeep Hdirs Hfiles Htasks Hclean. unfold clean_all.
  rewrite bind_get_config, st_bind.
  rewrite (cleanup_dirs_idle _ "." s' Hdirs).
  destruct (res (cleanup_dirs _ false "." s')) as [[]|e]; [|reflexivity].
  rewrite bind_get_config, st_bind.
  assert (Hf : st (cleanup_files (or_empty (all_files (cfg_clean_all (cfg s')))) false "." s')
               = s').
  { apply Store_ext; [now apply cleanup_files_idle | apply cleanup_files_keeps_config]. }
  rewrite Hf.
  destruct (res (cleanup_files _ false "." s')) as [[]|e]; [|reflexivity].
  rewrite st_bind.
  assert (Ht : st (execute_cleanup_tasks cleanup_all_tasks false s') = s').
  { apply Store_ext; [exact Htasks | apply Hkeep]. }
  rewrite Ht.
  destruct (res (execute_cleanup_tasks cleanup_all_tasks false s')) as [[]|e];
    [exact Hclean | reflexivity].
Qed.

(** X19.  On a lawful filesystem, with contributors in both registries
    that settle and leave the configuration alone, a real run of
    [clean_all] that returns has swept the lists of [clean_all] and the
    lists of [clean] alike: of the paths that a pattern of any of the
    directory lists still yields every one is behind the safety gate,
    and of the paths that a pattern of any of the file lists still
    yields every one starts with the environment base or cannot be
    unlinked.  A second run of [clean_all], on the store the first left,
    leaves the filesystem as the first left it. *)
Theorem clean_all_sweeps_and_settles :
  forall s : Store FS,
    (forall t, In t (cleanup_tasks ++ cleanup_all_tasks) ->
               settles (task_body t false) /\ keeps_config (task_body t false)) ->
    is_ok (res (clean_all false s)) = true ->
    (forall pat p,
        In pat (or_empty (all_directories (cfg_clean_all (cfg s))) ++
                directories (cfg_clean (cfg s)) ++
                or_empty (extra_directories (cfg_clean (cfg s)))) ->
        In p (glob (fs (st (clean_all false s))) "." pat) ->
        startswith sys_executable (abspath p) = true \/
        startswith (abspath p) python_basedir = true) /\
    (forall pat p,
        In pat (or_empty (all_files (cfg_clean_all (cfg s))) ++
                files (cfg_clean (cfg s)) ++
                or_empty (extra_files (cfg_clean (cfg s)))) ->
        In p (glob (fs (st (clean_all false s))) "." pat) ->
        startswith (abspath p) python_basedir = true \/
        forall t', fs_le t' (fs (st (clean_all false s))) -> fst (remove_p p t') = t') /\
    fs (st (clean_all false (st (clean_all false s)))) = fs (st (clean_all false s)).
Proof.
  intros s Hall Hok.
  assert (H1 : forall t, In t cleanup_tasks ->
                         settles (task_body t false) /\ keeps_config (task_body t false))
    by (intros t Hin; apply Hall, in_or_app; now left).
  assert (H2 : forall t, In t cleanup_all_tasks ->
                         settles (task_body t false) /\ keeps_config (task_body t false))
    by (intros t Hin; apply Hall, in_or_app; now right).
  assert (H2s : settles (execute_cleanup_tasks cleanup_all_tasks false))
    by (apply execute_cleanup_tasks_settles; intros t Hin; now apply H2).
  assert (H2k : keeps_config (execute_cleanup_tasks cleanup_all_tasks false))
    by (apply execute_cleanup_tasks_keeps_config; intros t Hin; now apply H2).
  destruct (clean_all_stages s Hok) as [Hok1 [Hok2 [Hok3 [Hok4 Hst]]]].
  set (A := or_empty (all_directories (cfg_clean_all (cfg s)))) in *.
  set (B := or_empty (all_files (cfg_clean_all (cfg s)))) in *.
  set (s1 := st (cleanup_dirs A false "." s)) in *.
  set (s2 := st (cleanup_files B false "." s1)) in *.
  set (s3 := st (execute_cleanup_tasks cleanup_all_tasks false s2)) in *.
  rewrite Hst.
  assert (Hcfg3 : cfg s3 = cfg s).
  { subst s3. rewrite H2k. subst s2. rewrite cleanup_files_keeps_config.
    subst s1. apply cleanup_dirs_keeps_config. }
  destruct (cleanup_dirs_sweeps A "." s Hok1) as [_ HsweptA]. fold s1 in HsweptA.
  destruct (cleanup_files_sweeps B "." s1 Hok2) as [Hle2 HsweptB]. fold s2 in Hle2, HsweptB.
  destruct H2s as [Hmono3 Hstable3].
  pose proof (Hmono3 s2 Hok3) as Hle3. fold s3 in Hle3.
  pose proof (clean_shrinks s3 H1 Hok4) as Hle4.
  destruct (clean_sweeps s3 H1 Hok4) as [Hd Hf]. rewrite Hcfg3 in Hd, Hf.
  assert (HA : forall pat, In pat A ->
                           dirs_swept (glob_dir ".") pat (fs (st (clean false s3)))).
  { intros pat Hin. eapply dirs_swept_mono; [|exact (HsweptA pat Hin)].
    eapply fs_le_trans; [exact Hle4|]. eapply fs_le_trans; eassumption. }
  assert (HB : forall pat, In pat B ->
                           files_swept (glob_dir ".") pat (fs (st (clean false s3)))).
  { intros pat Hin. eapply files_swept_mono; [|exact (HsweptB pat Hin)].
    eapply fs_le_trans; eassumption. }
  split; [|split].
  - intros pat p Hpat Hp. apply orb_true_iff.
    apply in_app_or in Hpat. destruct Hpat as [Hpat|Hpat].
    + exact (HA pat Hpat p Hp).
    + exact (Hd pat Hpat p Hp).
  - intros pat p Hpat Hp.
    apply in_app_or in Hpat. destruct Hpat as [Hpat|Hpat].
    + exact (HB pat Hpat p Hp).
    + exact (Hf pat Hpat p Hp).
  - assert (Hcfg' : cfg (st (clean false s3)) = effective_config (cfg s)).
    { rewrite clean_leaves_effective_config; [now rewrite Hcfg3|].
      intros t Hin. now apply H1. }
    apply clean_all_idle.
    + exact H2k.
    + rewrite Hcfg'. exact HA.
    + rewrite Hcfg'. exact HB.
    + apply (Hstable3 s2 Hok3). exact Hle4.
    + now apply clean_real_twice.
Qed.

(** X12.  A pattern that another module has added with
    [config_add_cleanup_dirs] or [config_add_cleanup_files] is swept by
    [clean] like the patterns the configuration came with: on a lawful
    filesystem, with contributors that settle and leave the
    configuration alone, a real run of [clean] that returns leaves of
    its matches only what the safety gate protects (or, for files, what
    cannot be unlinked). *)
Theorem helper_patterns_are_swept :
  forall (more_directories more_files : list string) (c : Config) (t : FS),
    let s := mkStore t (config_add_cleanup_files more_files
                          (config_add_cleanup_dirs more_directories c)) in
    (forall task, In task cleanup_tasks ->
                  settles (task_body task false) /\ keeps_config (task_body task false)) ->
    is_ok (res (clean false s)) = true ->
    (forall pat p,
        In pat more_directories ->
        In p (glob (fs (st (clean false s))) "." pat) ->
        startswith sys_executable (abspath p) = true \/
        startswith (abspath p) python_basedir = true) /\
    (forall pat p,
        In pat more_files ->
        In p (glob (fs (st (clean false s))) "." pat) ->
        startswith (abspath p) python_basedir = true \/
        forall t', fs_le t' (fs (st (clean false s))) -> fst (remove_p p t') = t').
Proof.
  intros more_directories more_files c t s Htasks Hok.
  destruct (clean_sweeps s Htasks Hok) as [Hd Hf].
  destruct (config_helpers_append more_directories more_files c)
    as [_ [_ [_ [Hdirs Hfiles]]]].
  split.
  - intros pat p Hpat Hp. apply orb_true_iff. apply (Hd pat); [|exact Hp].
    subst s. cbn [cfg]. rewrite Hdirs. apply in_or_app. right. apply in_or_app. now left.
  - intros pat p Hpat Hp. apply (Hf pat); [|exact Hp].
    subst s. cbn [cfg]. rewrite Hfiles. apply in_or_app. right. apply in_or_app. now left.
Qed.

End Sweeping.

End Engine.


Arguments Task FS : clear implicits.

(** ** The engine on concrete trees *)

Module Scenario.

(** A POSIX process: the interpreter at [exe], started in [dir], on a
    small filesystem. *)
Definition posix (exe dir : string) : System SimpleFS.t :=
  mkSystem SimpleFS.t SimpleFS.glob SimpleFS.rmtree_p SimpleFS.remove_p
           SimpleFS.run_cmd (Posix.abspath dir) Posix.dirname Posix.joinpath
           exe dir.

(** A project with its virtual environment inside it. *)
Definition in_venv : System SimpleFS.t :=
  posix "/home/dev/project/venv/bin/python" "/home/dev/project".

(** A project run by the interpreter of the system. *)
Definition system_wide : System SimpleFS.t :=
  posix "/usr/bin/python3" "/home/dev/project".

Definition dir_ (p : string) : string * SimpleFS.Kind := (p, SimpleFS.KDir).
Definition file (p : string) : string * SimpleFS.Kind := (p, SimpleFS.KFile).
Definition locked (p : string) : string * SimpleFS.Kind := (p, SimpleFS.KLocked).

Definition venv_tree : SimpleFS.t :=
  [dir_ "venv"; dir_ "venv/bin"; file "venv/bin/python";
   dir_ "venv-other"; file "venv-other/notes.txt";
   dir_ "tmp"; file "tmp/x"].

Definition venv_store : Store SimpleFS.t := mkStore venv_tree default_config.

(** Bytecode caches: six inside the environment, one in the sources. *)
Definition pycache_tree : SimpleFS.t :=
  [dir_ "venv"; dir_ "venv/bin"; file "venv/bin/python"; dir_ "venv/lib";
   dir_ "venv/lib/a"; dir_ "venv/lib/a/__pycache__";
   dir_ "venv/lib/b"; dir_ "venv/lib/b/__pycache__";
   dir_ "venv/lib/c"; dir_ "venv/lib/c/__pycache__";
   dir_ "venv/lib/d"; dir_ "venv/lib/d/__pycache__";
   dir_ "venv/lib/e"; dir_ "venv/lib/e/__pycache__";
   dir_ "venv/lib/f"; dir_ "venv/lib/f/__pycache__";
   dir_ "src"; dir_ "src/__pycache__"; file "src/__pycache__/m.pyc"].

Definition pycache_store : Store SimpleFS.t := mkStore pycache_tree default_config.


(** A directory whose name is the start of the name of the environment. *)
Definition ve_tree : SimpleFS.t :=
  [dir_ "ve"; file "ve/data"; dir_ "venv"; dir_ "venv/bin"; file "venv/bin/python"].

Definition ve_store : Store SimpleFS.t := mkStore ve_tree default_config.

(** A build directory that both [clean_python] and the configuration
    name, and a log file. *)
Definition build_tree : SimpleFS.t :=
  [dir_ "build"; file "build/lib.py"; file "a.log"].

Definition build_store : Store SimpleFS.t :=
  mkStore build_tree (config_add_cleanup_dirs ["build"] default_config).

Definition registry : list (Task SimpleFS.t) :=
  initial_cleanup_tasks (sys := system_wide).



(** Log files, one of which cannot be unlinked. *)
Definition logs_tree : SimpleFS.t :=
  [file "a.log"; locked "b.log"; file "c.log"; file "keep.txt"].

Definition logs_store : Store SimpleFS.t := mkStore logs_tree default_config.

(** The user asks for one more pattern. *)
Definition extras_config : Config :=
  mkConfig (mkCleanConfig (directories (cfg_clean default_config))
                          (files (cfg_clean default_config))
                          (Some []) (Some ["*.bak2"]))
           (cfg_clean_all default_config).

Definition extras_store : Store SimpleFS.t :=
  mkStore [file "x.log"; file "y.bak2"] extras_config.

(** A working tree after a build, with one log file that cannot be
    unlinked. *)
Definition worked_tree : SimpleFS.t :=
  [dir_ "build"; file "build/lib.py"; dir_ "pkg"; dir_ "pkg/__pycache__";
   file "pkg/__pycache__/m.pyc"; file "a.log"; locked "b.log"; file "keep.txt"].

Definition worked_store : Store SimpleFS.t :=
  mkStore worked_tree (config_add_cleanup_dirs ["build"] default_config).

(** A tree where [build] is a file, not a directory. *)
Definition broken_tree : SimpleFS.t :=
  [file "build"; dir_ "dist"; file "dist/pkg.tar"; file "m.pyc"].

Definition broken_store : Store SimpleFS.t := mkStore broken_tree default_config.

(** The registry once a module of documentation tasks has added its own
    cleanup task, as the module docstring shows. *)
Definition docs_registry : list (Task SimpleFS.t) :=
  initial_cleanup_tasks (sys := system_wide) ++
  [mkTask "clean_docs"
          (fun dry_run => cleanup_dirs (sys := system_wide) ["build/docs"] dry_run ".")].

(** A project with temporary directories and log files, swept by
    [clean_all] with the registries as the module leaves them. *)
Definition crowded_store : Store SimpleFS.t :=
  mkStore (venv_tree ++ logs_tree) default_config.

Definition crowded_all_run : Out SimpleFS.t unit :=
  clean_all (sys := system_wide) registry [] false crowded_store.

(** Bytecode files beside their sources, one of which cannot be
    unlinked. *)
Definition bytecode_tree : SimpleFS.t :=
  [dir_ "pkg"; file "pkg/m.py"; file "pkg/m.pyc"; locked "pkg/n.pyc"; file "top.pyo"].

Definition bytecode_store : Store SimpleFS.t := mkStore bytecode_tree default_config.

(** A process in which the command that [clean_python] runs is not to be
    had: the shell ends with status 127 and [ctx.run] raises. *)
Definition without_command : System SimpleFS.t :=
  mkSystem SimpleFS.t SimpleFS.glob SimpleFS.rmtree_p SimpleFS.remove_p
           (fun cmd tree =>
              (tree, [("/bin/bash: " ++ cmd ++ ": command not found")%string],
               Some (mkExn "UnexpectedExit" "Encountered a bad command exit code!" false)))
           (Posix.abspath "/home/dev/project") Posix.dirname Posix.joinpath
           "/usr/bin/python3" "/home/dev/project".

End Scenario.

(** ** The scenarios of the specification *)

(** Basic sweep: the two matching files go, the third stays. *)
Example scenario_basic_sweep :
  let o := cleanup_files (sys := Scenario.system_wide) ["*.log"; "*.tmp"] false "."
             (mkStore [Scenario.file "a.log"; Scenario.file "b.tmp";
                       Scenario.file "keep.txt"] default_config) in
  fs (st o) = [Scenario.file "keep.txt"] /\
  stdout (evs o) = ["REMOVE: a.log"; "REMOVE: b.tmp"].
Proof. split; reflexivity. Qed.

(** Self-protection: the environment named in [clean_all.directories] stays. *)
Example scenario_self_protection :
  let o := cleanup_dirs (sys := Scenario.in_venv) [".venv*"; "venv"] false "."
                        Scenario.venv_store in
  res o = Ok tt /\ fs (st o) = Scenario.venv_tree /\
  stdout (evs o) = ["SKIP-SUICIDE: 'venv' contains current python executable"].
Proof. repeat split; reflexivity. Qed.

(** Recursive pattern: both cache directories go. *)
Example scenario_recursive_pattern :
  let o := clean_python (sys := Scenario.system_wide) false
             (mkStore [Scenario.dir_ "pkg"; Scenario.dir_ "pkg/__pycache__";
                       Scenario.file "pkg/__pycache__/x.pyc";
                       Scenario.dir_ "sub"; Scenario.dir_ "sub/pkg";
                       Scenario.dir_ "sub/pkg/__pycache__";
                       Scenario.file "sub/pkg/__pycache__/y.pyc"] default_config) in
  fs (st o) = [Scenario.dir_ "pkg"; Scenario.dir_ "sub"; Scenario.dir_ "sub/pkg"].
Proof. reflexivity. Qed.

(** Dry run: nothing goes, and the lines carry the suffix. *)
Example scenario_dry_run :
  let s := mkStore [Scenario.file "a.log"; Scenario.file "b.tmp";
                    Scenario.file "keep.txt"] default_config in
  let o := cleanup_files (sys := Scenario.system_wide) ["*.log"; "*.tmp"] true "." s in
  fs (st o) = fs s /\
  stdout (evs o) = ["REMOVE: a.log (dry-run)"; "REMOVE: b.tmp (dry-run)"].
Proof. split; reflexivity. Qed.

Lemma cleanup_dirs_spares_interpreter_witness :
  startswith (sys_executable (System := Scenario.in_venv))
             (abspath (System := Scenario.in_venv) "venv") = true /\
  cleanup_dirs_each (sys := Scenario.in_venv) ["venv"; "tmp"] false 0 Scenario.venv_store =
  (print "SKIP-SUICIDE: 'venv' contains current python executable" ;;
   cleanup_dirs_each (sys := Scenario.in_venv) ["tmp"] false 0) Scenario.venv_store /\
  In (EvPrint "SKIP-SUICIDE: 'venv' contains current python executable")
     (evs (cleanup_dirs_each (sys := Scenario.in_venv) ["venv"; "tmp"] false 0
                             Scenario.venv_store)).
Proof.
  destruct (cleanup_dirs_spares_interpreter (sys := Scenario.in_venv)
              ["venv"; "tmp"] false "." Scenario.venv_store) as [_ [Hstep Hall]].
  split; [reflexivity|]. split.
  - exact (Hstep "venv" ["tmp"] 0 Scenario.venv_store eq_refl).
  - exact (Hall ["venv"; "tmp"] 0 Scenario.venv_store "venv"
                eq_refl (or_introl eq_refl) eq_refl).
Defined.



Lemma gate_is_raw_string_prefix_witness :
  (abspath (System := Scenario.in_venv) "venv-other" =
   (python_basedir (sys := Scenario.in_venv) ++ "-other")%string /\
   cleanup_files_each (sys := Scenario.in_venv) ["venv-other"; "tmp/x"] false
                      (mkFileErrors None 0) Scenario.venv_store =
   cleanup_files_each (sys := Scenario.in_venv) ["tmp/x"] false
                      (mkFileErrors None 0) Scenario.venv_store /\
   exists notes n',
     cleanup_dirs_each (sys := Scenario.in_venv) ["venv-other"; "tmp"] false 0
                       Scenario.venv_store =
     let o := cleanup_dirs_each (sys := Scenario.in_venv) ["tmp"] false n'
                                Scenario.venv_store in
     mkOut (res o) (st o) (map EvPrint notes ++ evs o)) /\
  (sys_executable (System := Scenario.in_venv) =
   (abspath (System := Scenario.in_venv) "ve" ++ "nv/bin/python")%string /\
   cleanup_dirs_each (sys := Scenario.in_venv) ["ve"; "venv"] false 0 Scenario.ve_store =
   (print "SKIP-SUICIDE: 've' contains current python executable" ;;
    cleanup_dirs_each (sys := Scenario.in_venv) ["venv"] false 0) Scenario.ve_store).
Proof.
  split.
  - destruct (gate_is_raw_string_prefix (sys := Scenario.in_venv)
                false "venv-other" "-other" ["tmp/x"]) as [H _].
    destruct (gate_is_raw_string_prefix (sys := Scenario.in_venv)
                false "venv-other" "-other" ["tmp"]) as [H' _].
    split; [reflexivity|]. split.
    + exact (proj1 (H eq_refl) _ Scenario.venv_store).
    + exact (proj2 (H' eq_refl) 0 Scenario.venv_store).
  - destruct (gate_is_raw_string_prefix (sys := Scenario.in_venv)
                false "ve" "nv/bin/python" ["venv"]) as [_ H].
    split; [reflexivity|]. exact (H eq_refl 0 Scenario.ve_store).
Defined.



Lemma clean_appends_extras_witness :
  clean (sys := Scenario.system_wide) Scenario.registry false Scenario.extras_store =
  (execute_cleanup_tasks Scenario.registry false ;;
   cleanup_dirs (sys := Scenario.system_wide) ([] ++ []) false "." ;;
   cleanup_files (sys := Scenario.system_wide)
                 (["*.bak"; "*.log"; "*.tmp"; "**/.DS_Store"; "**/*.~*~"] ++ ["*.bak2"])
                 false ".")
    (mkStore (fs Scenario.extras_store) (effective_config (cfg Scenario.extras_store))).
Proof.
  apply (clean_appends_extras (sys := Scenario.system_wide) Scenario.registry
                              false Scenario.extras_store).
  intros t [<-|[]]. apply clean_python_keeps_config.
Defined.




(** ** The small filesystem is lawful *)

Lemma simplefs_filter_all (tree : SimpleFS.t) :
  filter (fun _ => true) tree = tree.
Proof. induction tree as [|e tree IH]; simpl; [reflexivity | now rewrite IH]. Qed.

Lemma simplefs_filter_twice (f g : string * SimpleFS.Kind -> bool) (tree : SimpleFS.t) :
  filter f (filter g tree) = filter (fun e => f e && g e) tree.
Proof.
  induction tree as [|e tree IH]; simpl; [reflexivity|].
  destruct (g e); simpl; [|now rewrite andb_false_r].
  rewrite andb_true_r. destruct (f e); now rewrite IH.
Qed.

Lemma simplefs_le_refl (tree : SimpleFS.t) : SimpleFS.le tree tree.
Proof. exists (fun _ => true). symmetry. apply simplefs_filter_all. Qed.

Lemma simplefs_le_trans (t1 t2 t3 : SimpleFS.t) :
  SimpleFS.le t1 t2 -> SimpleFS.le t2 t3 -> SimpleFS.le t1 t3.
Proof.
  intros [k1 ->] [k2 ->]. exists (fun n => k1 n && k2 n).
  apply simplefs_filter_twice.
Qed.

Lemma simplefs_glob_names (tree : SimpleFS.t) (dir pattern p : string) :
  In p (SimpleFS.glob tree dir pattern) -> In p (map fst tree).
Proof. unfold SimpleFS.glob. intros H. now apply filter_In in H. Qed.

Lemma simplefs_glob_mono (smaller tree : SimpleFS.t) (dir pattern p : string) :
  SimpleFS.le smaller tree ->
  In p (SimpleFS.glob smaller dir pattern) -> In p (SimpleFS.glob tree dir pattern).
Proof.
  intros [keep ->]. unfold SimpleFS.glob. rewrite !filter_In.
  intros [Hin Hmatch]. split; [|exact Hmatch].
  apply in_map_iff in Hin. destruct Hin as [e [<- He]].
  apply filter_In in He. apply in_map. tauto.
Qed.

Lemma simplefs_lookup_none (p : string) (tree : SimpleFS.t) :
  SimpleFS.lookup p tree = None -> ~ In p (map fst tree).
Proof.
  unfold SimpleFS.lookup.
  destruct (find (fun e => String.eqb (fst e) p) tree) eqn:Hfind; [discriminate|].
  intros _ Hin. apply in_map_iff in Hin. destruct Hin as [e [<- He]].
  pose proof (find_none _ _ Hfind e He) as H. cbv beta in H.
  now rewrite String.eqb_refl in H.
Qed.

Lemma simplefs_lookup_filter (keep : string -> bool) (p : string) (tree : SimpleFS.t) :
  SimpleFS.lookup p (filter (fun e => keep (fst e)) tree) =
  if keep p then SimpleFS.lookup p tree else None.
Proof.
  unfold SimpleFS.lookup. induction tree as [|[n k] tree IH]; simpl.
  - now destruct (keep p).
  - destruct (String.eqb_spec n p) as [->|Hne].
    + destruct (keep p) eqn:Hp; simpl.
      * now rewrite String.eqb_refl.
      * exact IH.
    + destruct (keep n); simpl; [|exact IH].
      apply String.eqb_neq in Hne. rewrite Hne. exact IH.
Qed.

Lemma simplefs_rmtree_p_ok (p : string) (tree : SimpleFS.t) :
  snd (SimpleFS.rmtree_p p tree) = None ->
  SimpleFS.le (fst (SimpleFS.rmtree_p p tree)) tree /\
  forall dir pattern, ~ In p (SimpleFS.glob (fst (SimpleFS.rmtree_p p tree)) dir pattern).
Proof.
  unfold SimpleFS.rmtree_p.
  destruct (SimpleFS.lookup p tree) as [[]|] eqn:Hlook; simpl; try discriminate; intros _.
  - split; [now exists (fun n => negb (SimpleFS.under p n))|].
    intros dir pattern Hin. apply simplefs_glob_names in Hin.
    apply in_map_iff in Hin. destruct Hin as [e [He Hin]].
    apply filter_In in Hin. destruct Hin as [_ Hkeep].
    rewrite He in Hkeep. unfold SimpleFS.under in Hkeep.
    now rewrite String.eqb_refl in Hkeep.
  - split; [apply simplefs_le_refl|].
    intros dir pattern Hin. apply simplefs_glob_names in Hin.
    now apply simplefs_lookup_none in Hlook.
Qed.

Lemma simplefs_remove_p_ok (p : string) (tree : SimpleFS.t) :
  snd (SimpleFS.remove_p p tree) = None ->
  SimpleFS.le (fst (SimpleFS.remove_p p tree)) tree /\
  forall dir pattern, ~ In p (SimpleFS.glob (fst (SimpleFS.remove_p p tree)) dir pattern).
Proof.
  unfold SimpleFS.remove_p.
  destruct (SimpleFS.lookup p tree) as [[]|] eqn:Hlook; simpl; try discriminate; intros _.
  - split; [now exists (fun n => negb (String.eqb n p))|].
    intros dir pattern Hin. apply simplefs_glob_names in Hin.
    apply in_map_iff in Hin. destruct Hin as [e [He Hin]].
    apply filter_In in Hin. destruct Hin as [_ Hkeep].
    rewrite He in Hkeep. now rewrite String.eqb_refl in Hkeep.
  - split; [apply simplefs_le_refl|].
    intros dir pattern Hin. apply simplefs_glob_names in Hin.
    now apply simplefs_lookup_none in Hlook.
Qed.

Lemma simplefs_remove_p_failed (p : string) (tree : SimpleFS.t) (e : Exn) :
  snd (SimpleFS.remove_p p tree) = Some e ->
  fst (SimpleFS.remove_p p tree) = tree /\
  forall smaller, SimpleFS.le smaller tree -> fst (SimpleFS.remove_p p smaller) = smaller.
Proof.
  unfold SimpleFS.remove_p.
  destruct (SimpleFS.lookup p tree) as [[]|] eqn:Hlook; simpl; try discriminate; intros _;
    (split; [reflexivity|]); intros smaller [keep ->];
    rewrite simplefs_lookup_filter, Hlook; now destruct (keep p).
Qed.

Definition simplefs_lawful (exe dir : string) : Lawful (Scenario.posix exe dir) :=
  mkLawful SimpleFS.t (Scenario.posix exe dir) SimpleFS.le
           simplefs_le_refl simplefs_le_trans simplefs_glob_mono
           simplefs_rmtree_p_ok simplefs_remove_p_ok simplefs_remove_p_failed.

Lemma simplefs_registry_settles (t : Task SimpleFS.t) :
  In t Scenario.registry ->
  settles (laws := simplefs_lawful "/usr/bin/python3" "/home/dev/project")
          (task_body t false) /\
  keeps_config (task_body t false).
Proof.
  intros [<-|[]]. split; [|apply clean_python_keeps_config].
  apply clean_python_settles. split.
  - intros s _. apply simplefs_le_refl.
  - intros s _ s' _. reflexivity.
Qed.

Lemma clean_twice_is_clean_once_witness :
  is_ok (res (clean (sys := Scenario.system_wide) Scenario.registry false
                    Scenario.worked_store)) = true /\
  fs (st (clean (sys := Scenario.system_wide) Scenario.registry false
                Scenario.worked_store)) =
  [Scenario.dir_ "pkg"; Scenario.locked "b.log"; Scenario.file "keep.txt"] /\
  fs (st (clean (sys := Scenario.system_wide) Scenario.registry false
                (st (clean (sys := Scenario.system_wide) Scenario.registry false
                           Scenario.worked_store)))) =
  fs (st (clean (sys := Scenario.system_wide) Scenario.registry false
                Scenario.worked_store)) /\
  fs (st (clean (sys := Scenario.system_wide) Scenario.registry true
                (st (clean (sys := Scenario.system_wide) Scenario.registry true
                           Scenario.worked_store)))) =
  fs (st (clean (sys := Scenario.system_wide) Scenario.registry true
                Scenario.worked_store)).
Proof.
  destruct (clean_twice_is_clean_once
              (laws := simplefs_lawful "/usr/bin/python3" "/home/dev/project")
              Scenario.registry Scenario.worked_store) as [Hreal Hdry].
  split; [reflexivity|]. split; [reflexivity|]. split.
  - apply Hreal; [exact simplefs_registry_settles | reflexivity].
  - apply Hdry. intros t [<-|[]]. apply clean_python_dry.
Defined.

(** ** The further properties on concrete trees *)





Lemma error_count_counts_diagnostics_witness :
  length (filter is_print
                 (evs (cleanup_files_loop (sys := Scenario.system_wide) ["*.log"] false "."
                                          (mkFileErrors None 0) Scenario.logs_store))) + 0 =
  length (filter is_unlink
                 (evs (cleanup_files_loop (sys := Scenario.system_wide) ["*.log"] false "."
                                          (mkFileErrors None 0) Scenario.logs_store))) + 1 /\
  (truthy None = negb (Nat.eqb 0 0) ->
   truthy (Some "PermissionError: [Errno 13] Permission denied: 'b.log'") =
   negb (Nat.eqb 1 0)).
Proof.
  exact (error_count_counts_diagnostics (sys := Scenario.system_wide)
           ["*.log"] "." (mkFileErrors None 0)
           (mkFileErrors (Some "PermissionError: [Errno 13] Permission denied: 'b.log'") 1)
           Scenario.logs_store eq_refl).
Defined.

Lemma failed_contributor_ends_the_run_witness :
  clean (sys := Scenario.system_wide) Scenario.docs_registry false Scenario.broken_store =
  mkOut (Raise (mkExn "NotADirectoryError" "[Errno 20] Not a directory: 'build'" true))
        Scenario.broken_store
        [EvPrint "CLEANUP TASK: clean_python"; EvPrint "RMTREE: build"; EvRmtree "build"].
Proof.
  destruct (failed_contributor_ends_the_run (sys := Scenario.system_wide)
              Scenario.docs_registry) as [_ Hclean].
  exact (Hclean false Scenario.broken_store _ eq_refl).
Defined.

Lemma tasks_are_gated_witness :
  Forall (gated (sys := Scenario.in_venv))
         (evs (clean (sys := Scenario.in_venv)
                     (initial_cleanup_tasks (sys := Scenario.in_venv)) false
                     Scenario.pycache_store)) /\
  Forall (gated (sys := Scenario.in_venv))
         (evs (clean_all (sys := Scenario.in_venv)
                         (initial_cleanup_tasks (sys := Scenario.in_venv))
                         (initial_cleanup_all_tasks (FS := SimpleFS.t)) false
                         Scenario.pycache_store)).
Proof.
  refine (proj2 (tasks_are_gated (sys := Scenario.in_venv)
                                 (initial_cleanup_tasks (sys := Scenario.in_venv))
                                 (initial_cleanup_all_tasks (FS := SimpleFS.t))
                                 false Scenario.pycache_store) _).
  intros t [<-|[]] s'. apply clean_python_gated.
Defined.



Lemma deleters_remove_all_matches_witness :
  startswith (sys_executable (System := Scenario.in_venv))
             (abspath (System := Scenario.in_venv) "venv") = true \/
  startswith (abspath (System := Scenario.in_venv) "venv")
             (python_basedir (sys := Scenario.in_venv)) = true.
Proof.
  refine (proj1 (deleters_remove_all_matches
                   (laws := simplefs_lawful "/home/dev/project/venv/bin/python"
                                            "/home/dev/project")
                   ["venv*"; "tmp"] "." Scenario.venv_store) eq_refl "venv*" "venv" _ _).
  - now left.
  - vm_compute. now left.
Defined.

Lemma dry_run_previews_the_real_run_witness :
  In (EvPrint "RMTREE: build (dry-run)")
     (evs (cleanup_dirs (sys := Scenario.system_wide) ["build"; "dist"] true "."
                        Scenario.worked_store)) /\
  In (EvPrint "REMOVE: a.log (dry-run)")
     (evs (cleanup_files (sys := Scenario.system_wide) ["*.log"] true "."
                         Scenario.worked_store)).
Proof.
  destruct (dry_run_previews_the_real_run
              (laws := simplefs_lawful "/usr/bin/python3" "/home/dev/project")
              ["build"; "dist"] "." Scenario.worked_store) as [Hd _].
  destruct (dry_run_previews_the_real_run
              (laws := simplefs_lawful "/usr/bin/python3" "/home/dev/project")
              ["*.log"] "." Scenario.worked_store) as [_ Hf].
  split.
  - apply (Hd "build"). vm_compute. tauto.
  - apply (Hf "a.log"). vm_compute. tauto.
Defined.

Lemma deleters_are_idempotent_witness :
  fs (st (cleanup_files (sys := Scenario.system_wide) ["*.log"] false "."
                        (st (cleanup_files (sys := Scenario.system_wide) ["*.log"] false "."
                                           Scenario.logs_store)))) =
  fs (st (cleanup_files (sys := Scenario.system_wide) ["*.log"] false "."
                        Scenario.logs_store)) /\
  fs (st (cleanup_dirs (sys := Scenario.system_wide) ["build"] false "."
                       (st (cleanup_dirs (sys := Scenario.system_wide) ["build"] false "."
                                         Scenario.worked_store)))) =
  fs (st (cleanup_dirs (sys := Scenario.system_wide) ["build"] false "."
                       Scenario.worked_store)).
Proof.
  split.
  - exact (proj2 (deleters_are_idempotent
                    (laws := simplefs_lawful "/usr/bin/python3" "/home/dev/project")
                    ["*.log"] "." Scenario.logs_store) eq_refl).
  - exact (proj1 (deleters_are_idempotent
                    (laws := simplefs_lawful "/usr/bin/python3" "/home/dev/project")
                    ["build"] "." Scenario.worked_store) eq_refl).
Defined.

Lemma clean_removes_all_matches_witness :
  is_ok (res (clean (sys := Scenario.system_wide) Scenario.registry false
                    Scenario.worked_store)) = true /\
  (startswith (abspath (System := Scenario.system_wide) "b.log")
              (python_basedir (sys := Scenario.system_wide)) = true \/
   forall t', SimpleFS.le t' (fs (st (clean (sys := Scenario.system_wide) Scenario.registry
                                            false Scenario.worked_store))) ->
              fst (SimpleFS.remove_p "b.log" t') = t').
Proof.
  split; [reflexivity|].
  refine (proj2 (clean_removes_all_matches
                   (laws := simplefs_lawful "/usr/bin/python3" "/home/dev/project")
                   Scenario.registry Scenario.worked_store
                   simplefs_registry_settles eq_refl) "*.log" "b.log" _ _).
  - vm_compute. tauto.
  - vm_compute. tauto.
Defined.

Lemma helper_patterns_are_swept_witness :
  is_ok (res (clean (sys := Scenario.system_wide) Scenario.registry false
                    Scenario.build_store)) = true /\
  forall p, In p (SimpleFS.glob (fs (st (clean (sys := Scenario.system_wide)
                                               Scenario.registry false
                                               Scenario.build_store))) "." "build") ->
            startswith "/usr/bin/python3" (Posix.abspath "/home/dev/project" p) = true \/
            startswith (Posix.abspath "/home/dev/project" p) "/usr" = true.
Proof.
  split; [reflexivity|]. intros p Hp.
  refine (proj1 (helper_patterns_are_swept
                   (laws := simplefs_lawful "/usr/bin/python3" "/home/dev/project")
                   Scenario.registry ["build"] [] default_config Scenario.build_tree
                   simplefs_registry_settles eq_refl) "build" p _ Hp).
  left. reflexivity.
Defined.

Definition without_command_lawful : Lawful Scenario.without_command :=
  mkLawful SimpleFS.t Scenario.without_command SimpleFS.le
           simplefs_le_refl simplefs_le_trans simplefs_glob_mono
           simplefs_rmtree_p_ok simplefs_remove_p_ok simplefs_remove_p_failed.

Lemma clean_python_sweeps_bytecode_witness :
  (is_ok (res (clean_python (sys := Scenario.system_wide) false
                            Scenario.bytecode_store)) = true /\
   (startswith (Posix.abspath "/home/dev/project" "pkg/n.pyc") "/usr" = true \/
    forall t',
      SimpleFS.le t' (fs (st (clean_python (sys := Scenario.system_wide) false
                                           Scenario.bytecode_store))) ->
      fst (SimpleFS.remove_p "pkg/n.pyc" t') = t')) /\
  (res (clean_python (sys := Scenario.without_command) false Scenario.bytecode_store) =
   Raise (mkExn "UnexpectedExit" "Encountered a bad command exit code!" false) /\
   Forall (fun ev => is_unlink ev = false)
          (evs (clean_python (sys := Scenario.without_command) false
                             Scenario.bytecode_store))) /\
  clean_python (sys := Scenario.without_command) false Scenario.broken_store =
  cleanup_dirs (sys := Scenario.without_command)
               ["build"; "dist"; "*.egg-info"; "**/__pycache__"] false "."
               Scenario.broken_store.
Proof.
  split; [split; [reflexivity|] | split].
  - refine (proj1 (clean_python_sweeps_bytecode
                     (laws := simplefs_lawful "/usr/bin/python3" "/home/dev/project")
                     Scenario.bytecode_store) eq_refl "**/*.pyc" "pkg/n.pyc" _ _).
    + left. reflexivity.
    + vm_compute. tauto.
  - exact (proj1 (proj2 (clean_python_sweeps_bytecode
                           (laws := without_command_lawful) Scenario.bytecode_store))
                 _ eq_refl eq_refl).
  - exact (proj2 (proj2 (clean_python_sweeps_bytecode
                           (laws := without_command_lawful) Scenario.broken_store))
                 _ eq_refl).
Defined.

Lemma clean_all_sweeps_and_settles_witness :
  is_ok (res Scenario.crowded_all_run) = true /\
  (startswith (Posix.abspath "/home/dev/project" "b.log") "/usr" = true \/
   forall t', SimpleFS.le t' (fs (st Scenario.crowded_all_run)) ->
              fst (SimpleFS.remove_p "b.log" t') = t') /\
  fs (st (clean_all (sys := Scenario.system_wide) Scenario.registry [] false
                    (st Scenario.crowded_all_run))) =
  fs (st Scenario.crowded_all_run).
Proof.
  split; [reflexivity|].
  destruct (clean_all_sweeps_and_settles
              (laws := simplefs_lawful "/usr/bin/python3" "/home/dev/project")
              Scenario.registry [] Scenario.crowded_store simplefs_registry_settles eq_refl)
    as [_ [Hfiles Hagain]].
  split; [|exact Hagain].
  refine (Hfiles "*.log" "b.log" _ _).
  - vm_compute. tauto.
  - vm_compute. tauto.
Defined.
